(** * scvelo.plotting.utils: colour keys, palettes, plot keys, clipping

    A shallow embedding of the helper functions of
    [scvelo/plotting/utils.py] and the properties its specification
    states about them.

    The annotated dataset ([AnnData]) is a record of finite maps keyed by
    strings, as the code sees it through [adata.obs], [adata.var],
    [adata.obsm], [adata.uns] and [adata.layers].  Functions that mutate
    the dataset or write to the logger are written in a small state and
    exception monad; an exception leaves the mutations made so far in
    place, as in Python.  Numeric arrays hold rationals: the arithmetic
    of [numpy.percentile] and [numpy.clip] is modelled exactly, without
    rounding and without NaN. *)

From Stdlib Require Import ZArith QArith Qround Lqa String Ascii List Bool Lia.
From Stdlib Require Import Sorting.Mergesort Sorting.Sorted Sorting.Permutation Orders.
From stdpp Require Import base option list gmap strings.

Set Default Proof Using "Type".

(* ================================================================= *)
(** * Part I: definitions *)
(* ================================================================= *)

(** ** Python strings and lists *)

Module Py.

(** [s[n:]] *)
Fixpoint drop_chars (n : nat) (s : string) : string :=
  match n, s with
  | O, _ => s
  | S _, EmptyString => EmptyString
  | S k, String _ s' => drop_chars k s'
  end.

(** [s.startswith(p)] *)
Definition startswith (s p : string) : bool := String.prefix p s.

(** [s.endswith(p)] *)
Definition endswith (s p : string) : bool :=
  (String.length p <=? String.length s)%nat
  && String.eqb (drop_chars (String.length s - String.length p) s) p.

(** [s.replace(old, new)] for a non-empty [old]: the occurrences of
    [old] are found from left to right and do not overlap.  [skip]
    counts the characters of a matched occurrence still to be
    passed over. *)
Fixpoint replace_from (old new : string) (skip : nat) (s : string) : string :=
  match s with
  | EmptyString => EmptyString
  | String ch s' =>
      match skip with
      | S k => replace_from old new k s'
      | O =>
          if String.prefix old s
          then new +:+ replace_from old new (String.length old - 1) s'
          else String ch (replace_from old new 0 s')
      end
  end.

Definition replace (s old new : string) : string := replace_from old new 0 s.

(** [sep.join(l)] *)
Fixpoint join (sep : string) (l : list string) : string :=
  match l with
  | [] => ""
  | [x] => x
  | x :: l' => x +:+ sep +:+ join sep l'
  end.

(** [l[k]] with Python's negative indices; [None] stands for the
    [IndexError]. *)
Definition getitem {A} (l : list A) (k : Z) : option A :=
  let n := Z.of_nat (length l) in
  if (k <? 0)%Z
  then (if (- k <=? n)%Z then l !! Z.to_nat (n + k) else None)
  else l !! Z.to_nat k.

(** [pandas.unique]: the distinct values in order of first
    appearance; [seen] is the hash table of the values met so far. *)
Fixpoint unique_from (seen : list string) (l : list string) : list string :=
  match l with
  | [] => []
  | x :: l' =>
      if bool_decide (x ∈ seen) then unique_from seen l'
      else x :: unique_from (x :: seen) l'
  end.

Definition unique (l : list string) : list string := unique_from [] l.

End Py.

(** ** Exceptions, results, and the state monad of the module *)

Inductive exn : Type :=
| ValueError (msg : string)
| IndexError
| KeyError (key : string)
| AttributeError
| TypeError.

Inductive result (A : Type) : Type :=
| Ok (a : A)
| Raise (e : exn).
Arguments Ok {A} a.
Arguments Raise {A} e.


(** ** numpy: percentiles and clipping *)

Module QOrder <: TotalLeBool.
Definition t := Q.
Definition leb := Qle_bool.
Lemma leb_total : forall x y, leb x y = true \/ leb y x = true.
Proof.
  intros x y. unfold leb. rewrite !Qle_bool_iff.
  destruct (Qlt_le_dec x y) as [H|H]; [left; apply Qlt_le_weak, H | right; exact H].
Qed.
End QOrder.

Module QSort := Sort QOrder.

Module Np.

Definition Qltb (x y : Q) : bool := negb (Qle_bool y x).

(** One percentile of a sorted, non-empty sample, by linear
    interpolation between the two nearest ranks (numpy's default):
    the virtual index is [(n - 1) * q / 100]. *)
Definition lerp_sorted (sorted : list Q) (q : Q) : Q :=
  let n := length sorted in
  let vidx := (inject_Z (Z.of_nat n - 1) * (q / 100))%Q in
  let lo := Z.to_nat (Qfloor vidx) in
  let hi := Nat.min (lo + 1) (n - 1) in
  let g := (vidx - inject_Z (Qfloor vidx))%Q in
  let a := nth lo sorted 0%Q in
  let b := nth hi sorted 0%Q in
  (a + (b - a) * g)%Q.

Definition valid_percentile (q : Q) : bool := Qle_bool 0 q && Qle_bool q 100.

(** [np.percentile(c, qs)] for a sequence [qs] of percentiles: all of
    them are validated first (a percentile outside [0, 100] is a
    [ValueError]), then the sample is sorted and every percentile read
    off.  An empty sample has no ranks to take from ([IndexError]). *)
Definition percentile (c : list Q) (qs : list Q) : result (list Q) :=
  if negb (forallb valid_percentile qs)
  then Raise (ValueError "Percentiles must be in the range [0, 100]")
  else match c with
       | [] => Raise IndexError
       | _ => Ok (map (lerp_sorted (QSort.sort c)) qs)
       end.

(** [np.maximum], [np.minimum] on one entry; on a tie the entry of
    the data is kept. *)
Definition maximum (x lb : Q) : Q := if Qltb x lb then lb else x.
Definition minimum (x ub : Q) : Q := if Qltb ub x then ub else x.

(** [np.clip(c, lb, ub)] is [minimum(maximum(c, lb), ub)]. *)
Definition clip1 (lb ub x : Q) : Q := minimum (maximum x lb) ub.
Definition clip (c : list Q) (lb ub : Q) : list Q := map (clip1 lb ub) c.

End Np.

(** ** The annotated dataset *)

(** A column of [adata.obs] or [adata.var] (a pandas Series): a
    categorical with its categories and one integer code per row
    ([-1] for a missing value), a numeric column, or a column of
    strings (object dtype). *)
Inductive column : Type :=
| Categorical (categories : list string) (codes : list Z)
| Numeric (values : list Q)
| Strings (values : list string).

(** [pandas.api.types.is_categorical] *)
Definition cat (col : column) : bool :=
  match col with Categorical _ _ => true | _ => false end.

(** The expression matrix [X] and the layers are only ever read through
    the one-gene view [adata[:, g]]: they are kept as the map from a
    gene name to its flattened column. *)
Record AnnData : Type := mkAnnData {
  n_obs : nat;
  obs : gmap string column;
  var : gmap string column;
  var_names : list string;
  X : string → list Q;
  layers : gmap string (string → list Q);
  obsm : gmap string (list (list Q));
  varm : gmap string (list (list Q));
  uns : gmap string (list string)
}.

Definition set_obsm (ad : AnnData) (m : gmap string (list (list Q))) : AnnData :=
  mkAnnData (n_obs ad) (obs ad) (var ad) (var_names ad) (X ad) (layers ad)
            m (varm ad) (uns ad).

Definition set_uns (ad : AnnData) (m : gmap string (list string)) : AnnData :=
  mkAnnData (n_obs ad) (obs ad) (var ad) (var_names ad) (X ad) (layers ad)
            (obsm ad) (varm ad) m.

(** [k in m.keys()] *)
Definition has_key {V} (m : gmap string V) (k : string) : bool :=
  bool_decide (is_Some (m !! k)).

(** [m.keys()], in some order; only membership is ever asked of it. *)
Definition dict_keys {V} (m : gmap string V) : list string := (map_to_list m).*1.

(** ** The logger and the state monad *)

Inductive log_entry : Type :=
| LogInfo (args : list string)
| LogWarn (args : list string).

Record state : Type := mkState {
  adata : AnnData;
  log : list log_entry
}.

Definition M (A : Type) : Type := state → result A * state.

Definition ret {A} (a : A) : M A := λ s, (Ok a, s).

Definition bind {A B} (m : M A) (k : A → M B) : M B :=
  λ s, match m s with
       | (Ok a, s') => k a s'
       | (Raise e, s') => (Raise e, s')
       end.

Definition raise {A} (e : exn) : M A := λ s, (Raise e, s).

Definition lift {A} (r : result A) : M A := λ s, (r, s).

Definition get_adata : M AnnData := λ s, (Ok (adata s), s).

Definition modify_adata (f : AnnData → AnnData) : M unit :=
  λ s, (Ok tt, mkState (f (adata s)) (log s)).

Definition logg (e : log_entry) : M unit :=
  λ s, (Ok tt, mkState (adata s) (log s ++ [e])).

Declare Scope M_scope.
Delimit Scope M_scope with M.
Notation "'let*' x ':=' m 'in' k" := (bind m (λ x, k))
  (at level 10, x name, m at level 100, k at level 200) : M_scope.
Notation "m ';;' k" := (bind m (λ _, k))
  (at level 100, k at level 200, right associativity) : M_scope.

(** [for x in l: body(x)], collecting the values *)
Fixpoint for_each {A B} (f : A → M B) (l : list A) : M (list B) :=
  match l with
  | [] => ret []
  | x :: l' => (let* y := f x in let* ys := for_each f l' in ret (y :: ys))%M
  end.

(** ** Colour keys, palettes and values *)

(** The argument [c] of [interpret_colorkey]: [None], a string, a
    sparse matrix or any other array. *)
Inductive colorkey : Type :=
| CNone
| CStr (s : string)
| CSparse (xs : list Q)
| CArray (xs : list Q).

(** What [interpret_colorkey] returns: a colour literal, an array with
    one colour per observation, a column of the dataset as it is
    stored, or a numeric array. *)
Inductive value : Type :=
| Color (c : string)
| ColorArray (cs : list string)
| Series (col : column)
| Array (xs : list Q).

(** A palette is a plain list of colours or a [Cycler] over the key
    ['color']; these are the two kinds [adjust_palette] tells apart
    with [isinstance(palette, list)] and [palette.by_key()]. *)
Inductive palette : Type :=
| PaletteList (cs : list string)
| PaletteCycler (cs : list string).

Definition palette_colors (p : palette) : list string :=
  match p with PaletteList cs | PaletteCycler cs => cs end.

Definition is_list (p : palette) : bool :=
  match p with PaletteList _ => true | PaletteCycler _ => false end.

(** The percentile argument [perc]: one number or a pair. *)
Inductive perc_arg : Type :=
| PercScalar (p : Q)
| PercPair (lo hi : Q).

(** The argument of [make_unique_list]: one key or a list of keys. *)
Inductive keys_arg : Type :=
| OneKey (key : string)
| KeyList (l : list string).

(** [key[2:] if key.startswith('X_') else key] *)
Definition strip_X (key : string) : string :=
  if Py.startswith key "X_" then Py.drop_chars 2 key else key.

(** The error of [interpret_colorkey] for a key that matches nothing. *)
Definition invalid_color_key : exn :=
  ValueError "color key is invalid! pass valid observation annotation or a gene name".

(** What the module imports and does not define:
    [matplotlib.colors.is_color_like], [strings_to_categoricals] of
    [scvelo.tools.utils] (which retypes columns of the dataset in
    place), the colour cycle [rcParams['axes.prop_cycle']] and the two
    tables of [scvelo.plotting.palettes]. *)
Class Imports : Type := {
  is_color_like : string → bool;
  strings_to_categoricals : AnnData → AnnData;
  rc_prop_cycle : list string;
  default_26 : list string;
  default_64 : list string
}.

Section Utils.

Context `{Imports}.

Open Scope M_scope.

Definition is_categorical (c : colorkey) : M bool :=
  modify_adata strings_to_categoricals ;;
  let* ad := get_adata in
  ret (match c with
       | CStr s =>
           negb (bool_decide (s ∈ var_names ad))
           && (from_option cat false (obs ad !! s) || is_color_like s)
       | _ => false
       end).

Definition n_categories (ad : AnnData) (c : string) : nat :=
  match obs ad !! c with
  | Some (Categorical cats _) => length cats
  | _ => 0
  end.

Definition default_basis (ad : AnnData) : result (option string) :=
  let keys := filter (λ key, has_key (obsm ad) ("X_" +:+ key) = true)
                     ["pca"; "tsne"; "umap"] in
  if bool_decide (keys = []) then Raise (ValueError "No basis specified.")
  else Ok (if (0 <? length keys)%nat then last keys else None).

Definition check_basis (basis : string) : M unit :=
  let* ad := get_adata in
  match obsm ad !! basis with
  | Some e =>
      if negb (has_key (obsm ad) ("X_" +:+ basis)) then
        modify_adata (λ ad, set_obsm ad (<["X_" +:+ basis := e]> (obsm ad))) ;;
        logg (LogInfo ["Renamed"; "'" +:+ basis +:+ "'"; "to convention";
                    "'X_" +:+ basis +:+ "' (adata.obsm)."])
      else ret tt
  | None => ret tt
  end.

Definition get_basis (basis : string) : M string :=
  let basis := strip_X basis in
  check_basis basis ;;
  ret basis.

(** A list of strings goes through [pandas.unique]; a single key is
    wrapped in a list. *)
Definition make_unique_list (key : keys_arg) : list string :=
  match key with
  | KeyList l => Py.unique l
  | OneKey k => [k]
  end.

(** The loop of [make_unique_valid_list]: a leading ['X_'] is cut off
    in place, and each key is passed to [check_basis]. *)
Fixpoint strip_and_check (keys : list string) : M (list string) :=
  match keys with
  | [] => ret []
  | key :: rest =>
      let key := strip_X key in
      check_basis key ;;
      let* rest' := strip_and_check rest in
      ret (key :: rest')
  end.

Definition valid_keys (ad : AnnData) : list string :=
  dict_keys (obs ad) ++ dict_keys (var ad) ++ dict_keys (varm ad)
  ++ dict_keys (obsm ad) ++ map (Py.drop_chars 2) (dict_keys (obsm ad))
  ++ dict_keys (layers ad).

Definition make_unique_valid_list (keys : keys_arg) : M (list string) :=
  let keys := make_unique_list keys in
  let* keys := strip_and_check keys in
  let* ad := get_adata in
  let valid := valid_keys ad in
  let keys_ := keys in
  let keys := filter (λ key, key ∈ valid ∨ key ∈ var_names ad) keys in
  let keys_ := filter (λ key, key ∉ keys) keys_ in
  (if (0 <? length keys_)%nat
   then logg (LogWarn [Py.join ", " keys_; "not found."])
   else ret tt) ;;
  ret keys.

Definition default_color (ad : AnnData) : string :=
  if has_key (obs ad) "clusters" then "clusters"
  else if has_key (obs ad) "louvain" then "louvain"
  else "grey".

(** [lb, ub = np.percentile(c, perc)] *)
Definition clip (c : list Q) (perc : perc_arg) : result (list Q) :=
  let perc :=
    match perc with
    | PercScalar p => if Np.Qltb p 50 then [p; 100%Q] else [0%Q; p]
    | PercPair lo hi => [lo; hi]
    end in
  match Np.percentile c perc with
  | Raise e => Raise e
  | Ok [lb; ub] => Ok (Np.clip c lb ub)
  | Ok _ => Raise (ValueError "not enough values to unpack")
  end.

(** [clip] on what [interpret_colorkey] hands it: percentiles exist
    for numbers only. *)
Definition clip_value (v : value) (perc : perc_arg) : result value :=
  match v with
  | Array xs =>
      match clip xs perc with Ok ys => Ok (Array ys) | Raise e => Raise e end
  | Series (Numeric xs) =>
      match clip xs perc with Ok ys => Ok (Series (Numeric ys)) | Raise e => Raise e end
  | _ => Raise TypeError
  end.

Definition default_palette (p : option palette) : palette :=
  match p with
  | None => PaletteCycler rc_prop_cycle
  | Some (PaletteList cs) => PaletteCycler cs
  | Some p => p
  end.

Definition adjust_palette (p : palette) (length : nat) : M palette :=
  let islist := is_list p in
  if (List.length (palette_colors p) <? length)%nat then
    let* cs :=
      (if (length <=? 28)%nat then ret default_26
       else if (length <=? List.length default_64)%nat then ret default_64
       else logg (LogInfo ["more than 103 colors would be required, initializing as 'grey'"]) ;;
            ret (repeat "grey" length)) in
    ret (if islist then PaletteList cs else PaletteCycler cs)
  else ret p.

(** [adata.obs[c].cat]: a [KeyError] without the column, an
    [AttributeError] when it is not categorical. *)
Definition obs_cat (ad : AnnData) (c : string) : result (list string * list Z) :=
  match obs ad !! c with
  | None => Raise (KeyError c)
  | Some (Categorical cats codes) => Ok (cats, codes)
  | Some _ => Raise AttributeError
  end.

(** [adata.uns[c + '_colors'][cluster_ix[i]]] *)
Definition color_at (ad : AnnData) (c : string) (cluster_ix : list Z) (i : nat)
  : M string :=
  match uns ad !! (c +:+ "_colors") with
  | None => raise (KeyError (c +:+ "_colors"))
  | Some pal =>
      match cluster_ix !! i with
      | None => raise IndexError
      | Some k =>
          match Py.getitem pal k with
          | Some col => ret col
          | None => raise IndexError
          end
      end
  end.

Definition get_colors (c : string) : M value :=
  if is_color_like c then ret (Color c)
  else
    let* ad := get_adata in
    (if negb (has_key (uns ad) (c +:+ "_colors")) then
       let palette := default_palette None in
       let* cc := lift (obs_cat ad c) in
       let* palette := adjust_palette palette (length cc.1) in
       match palette with
       | PaletteCycler cs =>
           modify_adata (λ ad, set_uns ad (<[c +:+ "_colors" := take (length cc.1) cs]> (uns ad)))
       | PaletteList _ => raise AttributeError
       end
     else ret tt) ;;
    let* ad := get_adata in
    let* cc := lift (obs_cat ad c) in
    let cluster_ix := cc.2 in
    let* colors := for_each (color_at ad c cluster_ix) (seq 0 (n_obs ad)) in
    ret (ColorArray colors).

Definition interpret_colorkey (c : colorkey) (layer : option string)
    (perc : option perc_arg) : M value :=
  let* ad := get_adata in
  let c : string + list Q :=
    match c with
    | CNone => inl (default_color ad)
    | CStr s => inl s
    | CSparse xs | CArray xs => inr xs
    end in
  let* categorical :=
    is_categorical (match c with inl s => CStr s | inr xs => CArray xs end) in
  match c with
  | inl s =>
      if categorical then get_colors s
      else
        let* ad := get_adata in
        let* v :=
          match obs ad !! s with
          | Some col => ret (Series col)
          | None =>
              if bool_decide (s ∈ var_names ad) then
                match layer ≫= (layers ad !!.) with
                | Some m => ret (Array (m s))
                | None => ret (Array (X ad s))
                end
              else
                match var ad !! s with
                | Some col => ret (Series col)
                | None => raise invalid_color_key
                end
          end in
        match perc with
        | Some p => lift (clip_value v p)
        | None => ret v
        end
  | inr xs =>
      match perc with
      | Some p => lift (clip_value (Array xs) p)
      | None => ret (Array xs)
      end
  end.

End Utils.

(** ** Saving figures *)

(** [rcParams['savefig.dpi']]: a name such as ['figure'], or a number. *)
Inductive dpi_value : Type :=
| DpiName (s : string)
| DpiNumber (d : Q).

(** The fields of [scvelo.settings] that [savefig_or_show] reads, and
    the one it writes. *)
Record Settings : Type := mkSettings {
  autosave : bool;
  autoshow : bool;
  figdir : string;
  plot_prefix : string;
  plot_suffix : string;
  file_format_figs : string;
  low_resolution_warning : bool
}.

(** The argument [save]: [None], a file name, or a flag. *)
Inductive save_arg : Type :=
| SaveNone
| SaveStr (s : string)
| SaveFlag (b : bool).

(** What the function does to the outside, in order. *)
Inductive effect : Type :=
| LoggWarn (msg : string)
| LoggMsg (args : list string)
| MakeDirs (path : string)
| SaveFig (filename : string) (dpi : option dpi_value)
| ShowFig
| CloseFig.

(** The loop over ['.svg'], ['.pdf'], ['.png']: at the first extension
    that [save] ends with, [ext] becomes the extension without its dot
    and [save] becomes [save.replace(try_ext, '')]. *)
Fixpoint find_ext (exts : list string) (ext : option string) (save : string)
  : option string * string :=
  match exts with
  | [] => (ext, save)
  | try_ext :: rest =>
      if Py.endswith save try_ext
      then (Some (Py.drop_chars 1 try_ext), Py.replace save try_ext "")
      else find_ext rest ext save
  end.

(** [writekey + '_' if writekey is not None and len(writekey) > 0 else ''] *)
Definition stem (writekey : option string) : string :=
  match writekey with
  | Some w => if (0 <? String.length w)%nat then w +:+ "_" else ""
  | None => ""
  end.

Section SaveFig.

Context (settings : Settings)
        (rc_savefig_dpi : dpi_value)
        (figdir_exists : bool).

Definition savefig_or_show (writekey : option string) (show : option bool)
    (dpi : option Q) (ext : option string) (save : save_arg)
  : list effect * Settings :=
  let '(ext, writekey, save) :=
    match save with
    | SaveStr save =>
        let '(ext, save) :=
          match ext with
          | None => find_ext [".svg"; ".pdf"; ".png"] ext save
          | Some _ => (ext, save)
          end in
        (ext, Some (stem writekey +:+ save), SaveFlag true)
    | _ => (ext, writekey, save)
    end in
  let save :=
    match save with SaveNone => autosave settings | SaveFlag b => b | SaveStr _ => true end in
  let show := default (autoshow settings) show in
  let '(saving, settings') :=
    if save then
      let '(dpi, warned, settings') :=
        match dpi with
        | Some d => (Some (DpiNumber d), [], settings)
        | None =>
            match rc_savefig_dpi with
            | DpiNumber d =>
                if Np.Qltb d 150 then
                  if low_resolution_warning settings
                  then (None,
                        [LoggWarn "You are using a low resolution (dpi<150) for saving figures."],
                        mkSettings (autosave settings) (autoshow settings) (figdir settings)
                                   (plot_prefix settings) (plot_suffix settings)
                                   (file_format_figs settings) false)
                  else (None, [], settings)
                else (Some rc_savefig_dpi, [], settings)
            | DpiName _ => (Some rc_savefig_dpi, [], settings)
            end
        end in
      let ext := default (file_format_figs settings) ext in
      let filename :=
        figdir settings +:+ plot_prefix settings +:+ default "None" writekey
        +:+ plot_suffix settings +:+ "." +:+ ext in
      (warned
       ++ (if figdir_exists then [] else [MakeDirs (figdir settings)])
       ++ [LoggMsg ["saving figure to file"; filename]; SaveFig filename dpi],
       settings')
    else ([], settings) in
  (saving ++ (if show then [ShowFig] else []) ++ (if save then [CloseFig] else []), settings').

End SaveFig.

(** ** Reference definitions and example data *)

(** The palette of the same kind as [p] (list or cycler) over the
    colours [cs]. *)
Definition recolor (p : palette) (cs : list string) : palette :=
  if is_list p then PaletteList cs else PaletteCycler cs.

(** Reading a stored palette: the colour of each of the [n] observations
    is the palette entry at its category code. *)
Definition lookup_colors (pal : list string) (codes : list Z) (n : nat)
  : option (list string) :=
  mapM (λ i, codes !! i ≫= Py.getitem pal) (seq 0 n).

(** The palette [get_colors] stores for an annotation of [n]
    categories that has none: the first [n] colours of the colour
    cycle, or of the fallback table when the cycle is too short. *)
Definition generated_palette `{Imports} (n : nat) : list string :=
  take n (if (length rc_prop_cycle <? n)%nat
          then if (n <=? 28)%nat then default_26
               else if (n <=? length default_64)%nat then default_64
               else repeat "grey" n
          else rc_prop_cycle).

(** The palette that colours the annotation [c] of [cats]: the stored
    one, or else the generated one. *)
Definition palette_in_use `{Imports} (ad : AnnData) (c : string)
    (cats : list string) : list string :=
  default (generated_palette (length cats)) (uns ad !! (c +:+ "_colors")).

(** What [get_colors] answers when it reads the palette [pal]. *)
Definition colors_read (pal : list string) (codes : list Z) (n : nat)
  : result value :=
  match lookup_colors pal codes n with
  | Some cs => Ok (ColorArray cs)
  | None => Raise IndexError
  end.



(** [check_basis] only ever adds embeddings under new names. *)
Definition obsm_grows (ad ad' : AnnData) : Prop :=
  obsm ad ⊆ obsm ad' ∧ ad' = set_obsm ad (obsm ad').

Definition is_info (e : log_entry) : bool :=
  match e with LogInfo _ => true | LogWarn _ => false end.

(** The changes [check_basis] and the loop around it make: new names
    in [obsm], and notes in the log. *)
Definition extends (st st' : state) : Prop :=
  obsm_grows (adata st) (adata st')
  ∧ ∃ infos, forallb is_info infos = true ∧ log st' = log st ++ infos.

(** ** The claims of the specification that the code does not meet,
    as they are worded *)




(** "For every categorical annotation [c] with fewer than 27
    categories and no stored palette, [get_colors] generates a palette
    at least as long as the category count and caches it under
    [c + '_colors']." *)
Definition caches_generated_palette `{Imports} (st : state) (c : string) : Prop :=
  ∀ cats codes,
    obs (adata st) !! c = Some (Categorical cats codes) →
    length cats < 27 →
    uns (adata st) !! (c +:+ "_colors") = None →
    ∃ pal, uns (adata (get_colors c st).2) !! (c +:+ "_colors") = Some pal
           ∧ length cats ≤ length pal.

(** "For every categorical annotation [c] whose palette is stored,
    [get_colors] reads the stored palette and leaves the metadata
    unchanged; two successive calls return equal colour arrays." *)
Definition reads_stored_palette `{Imports} (st : state) (c : string) : Prop :=
  ∀ cats codes pal,
    obs (adata st) !! c = Some (Categorical cats codes) →
    uns (adata st) !! (c +:+ "_colors") = Some pal →
    (get_colors c st).1 = colors_read pal codes (n_obs (adata st))
    ∧ (get_colors c st).2 = st
    ∧ (get_colors c (get_colors c st).2).1 = (get_colors c st).1.

(** "Clipping with the bounds [2, 98] modifies at most the values
    below the 2nd and above the 98th percentile, so at least 2% of the
    values at each tail remain unchanged beyond the clipping bounds."
    [unchanged_below] counts the entries below the lower bound that
    the clipping left as they were, [unchanged_above] those above the
    upper bound. *)
Definition unchanged_below (c r : list Q) (lb : Q) : nat :=
  length (List.filter (λ xy : Q * Q, Np.Qltb xy.1 lb && Qeq_bool xy.1 xy.2)
                      (combine c r)).

Definition unchanged_above (c r : list Q) (ub : Q) : nat :=
  length (List.filter (λ xy : Q * Q, Np.Qltb ub xy.1 && Qeq_bool xy.1 xy.2)
                      (combine c r)).

Definition leaves_tails_unclipped (c : list Q) : Prop :=
  ∃ lb ub r,
    Np.percentile c [2; 98]%Q = Ok [lb; ub]
    ∧ clip c (PercPair 2 98) = Ok r
    ∧ (∀ i x y, c !! i = Some x → r !! i = Some y → y ≠ x →
                (x < lb)%Q ∨ (ub < x)%Q)
    ∧ 2 * length c ≤ 100 * unchanged_below c r lb
    ∧ 2 * length c ≤ 100 * unchanged_above c r ub.

(** Some of the names matplotlib accepts as colours; an instance of
    [is_color_like] on strings. *)
Definition named_color (s : string) : bool :=
  bool_decide (s ∈ ["red"; "green"; "blue"; "grey"; "black"; "white";
                    "b"; "g"; "r"; "c"; "m"; "y"; "k"; "w"]).

(** An instance of [strings_to_categoricals]: a column of strings of
    [obs] with repeated values becomes a categorical over its distinct
    values. *)
Definition index_of (cats : list string) (v : string) : Z :=
  match list_find (λ x, x = v) cats with
  | Some (i, _) => Z.of_nat i
  | None => (-1)%Z
  end.

Definition retype_column (col : column) : column :=
  match col with
  | Strings vs =>
      let cats := Py.unique vs in
      if (1 <? length cats)%nat && (length cats <? Nat.min (length vs) 100)%nat
      then Categorical cats (map (index_of cats) vs)
      else col
  | _ => col
  end.

Definition retype_strings (ad : AnnData) : AnnData :=
  mkAnnData (n_obs ad) (retype_column <$> obs ad) (var ad) (var_names ad) (X ad)
            (layers ad) (obsm ad) (varm ad) (uns ad).

(** matplotlib's default colour cycle, and two tables of the sizes the
    code expects of [palettes.default_26] and [palettes.default_64]. *)
Definition tab10 : list string :=
  ["#1f77b4"; "#ff7f0e"; "#2ca02c"; "#d62728"; "#9467bd";
   "#8c564b"; "#e377c2"; "#7f7f7f"; "#bcbd22"; "#17becf"].

Definition numbered (prefix : string) (n : nat) : list string :=
  map (λ i, prefix +:+ String (ascii_of_nat (48 + i / 100)) (String (ascii_of_nat (48 + i / 10 mod 10))
                        (String (ascii_of_nat (48 + i mod 10)) ""))) (seq 0 n).

Definition table_26 : list string := numbered "#zeileis" 28.
Definition table_64 : list string := numbered "#godsnot" 103.

(** The imports the examples run with. *)
Definition example_imports : Imports :=
  {| is_color_like := named_color;
     strings_to_categoricals := retype_strings;
     rc_prop_cycle := tab10;
     default_26 := table_26;
     default_64 := table_64 |}.

(** A small dataset: four cells, two genes, a clustering, a categorical
    column that happens to be called ['red'], a numeric column, a column
    of strings, embeddings, and a stored palette for each of the two
    categorical columns. *)
Definition cells : AnnData :=
  {| n_obs := 4;
     obs := {[ "clusters" := Categorical ["B"; "NK"; "T"] [0; 2; 1; 2]%Z;
               "red" := Categorical ["high"; "low"] [0; 0; 1; 1]%Z;
               "n_counts" := Numeric [10; 40; 20; 30]%Q;
               "batch" := Strings ["a"; "b"; "a"; "c"] ]};
     var := {[ "means" := Numeric [1; 2]%Q ]};
     var_names := ["Actb"; "Gapdh"];
     X := λ g, if String.eqb g "Actb" then [1; 0; 3; 2]%Q else [5; 5; 0; 1]%Q;
     layers := {[ "spliced" := λ g, [0; 0; 1; 1]%Q ]};
     obsm := {[ "X_pca" := [[0; 1]; [1; 0]; [1; 1]; [0; 0]]%Q;
                "X_tsne" := [[0; 2]; [2; 0]; [2; 2]; [0; 0]]%Q;
                "X_umap" := [[0; 3]; [3; 0]; [3; 3]; [0; 0]]%Q ]};
     varm := ∅;
     uns := {[ "red_colors" := ["orange"; "purple"];
               "clusters_colors" := ["#1f77b4"; "#ff7f0e"; "#2ca02c"] ]} |}.

(** Total counts per cell, as in the column ['n_counts'] of [cells]. *)
Definition counts : list Q := [10; 40; 20; 30]%Q.

(** The settings a session starts with, and a resolution of 200 dpi
    for saved figures. *)
Definition example_settings : Settings :=
  {| autosave := false;
     autoshow := true;
     figdir := "./figures/";
     plot_prefix := "scvelo_";
     plot_suffix := "";
     file_format_figs := "pdf";
     low_resolution_warning := true |}.

(** The same cells without any embedding. *)
Definition cells_no_basis : AnnData := set_obsm cells ∅.

(** The same cells with no palette stored at all. *)
Definition cells_no_palette : AnnData := set_uns cells ∅.



(** ** Further functions of the module *)

(** [default_size]: the marker size, [1.2e5 / n_obs], averaged with the
    classic size 20 under the style ['scvelo'].  The style is
    [settings._rcParams_style]; [None] stands for the
    [ZeroDivisionError] of a dataset without observations. *)
Definition default_size (rcParams_style : string) (ad : AnnData) : option Q :=
  if (n_obs ad =? 0)%nat then None
  else
    let adjusted := (120000 / inject_Z (Z.of_nat (n_obs ad)))%Q in
    let classic := 20%Q in
    Some (if String.eqb rcParams_style "scvelo"
          then ((adjusted + classic) / 2)%Q
          else adjusted).

(** [set_title]: the text handed to [ax.set_title].  An argument that
    is no string counts as [None]. *)
Definition set_title `{Imports} (title layer color : option string) : string :=
  let color :=
    match color with
    | Some c => if negb (is_color_like c) then Some c else None
    | None => None
    end in
  let title :=
    match title with
    | Some t => if negb (is_color_like t) then Some t else None
    | None => None
    end in
  match title with
  | Some t => Py.replace t "_" " "
  | None =>
      match layer, color with
      | Some l, Some c => Py.replace (c +:+ " " +:+ l) "_" " "
      | _, Some c => Py.replace c "_" " "
      | _, _ => ""
      end
  end.

(** The effects of one call that write a file, and the warnings. *)
Definition is_savefig (e : effect) : bool :=
  match e with SaveFig _ _ => true | _ => false end.

Definition is_warning (e : effect) : bool :=
  match e with LoggWarn _ => true | _ => false end.

(** A dataset of four thousand cells and nothing else. *)
Definition atlas : AnnData :=
  mkAnnData 4000 ∅ ∅ [] (λ _, []) ∅ ∅ ∅ ∅.

(** The cells with an embedding stored under a bare name. *)
Definition cells_bare_basis : AnnData :=
  set_obsm cells {[ "diffmap" := [[0; 1]; [1; 0]; [1; 1]; [0; 0]]%Q ]}.

(** The cells with a missing value in the clustering of the last one. *)
Definition cells_missing_value : AnnData :=
  mkAnnData 4 {[ "clusters" := Categorical ["B"; "NK"; "T"] [0; 2; 1; -1]%Z ]}
            ∅ [] (λ _, []) ∅ ∅ ∅
            {[ "clusters_colors" := ["#1f77b4"; "#ff7f0e"; "#2ca02c"] ]}.

(** Four cells with an annotation named after a gene. *)
Definition cells_gene_column : AnnData :=
  mkAnnData 4 {[ "Actb" := Categorical ["off"; "on"] [0; 1; 1; 0]%Z ]}
            ∅ ["Actb"; "Gapdh"] (λ _, [1; 0; 3; 2]%Q) ∅ ∅ ∅ ∅.
(* ================================================================= *)
(** * Part II: properties *)
(* ================================================================= *)

(** ** The monad *)

Lemma has_key_true {V} (m : gmap string V) k : has_key m k = true ↔ is_Some (m !! k).
Proof. unfold has_key. apply bool_decide_eq_true. Qed.

Lemma has_key_false {V} (m : gmap string V) k : has_key m k = false ↔ m !! k = None.
Proof. unfold has_key. rewrite bool_decide_eq_false, eq_None_not_Some. done. Qed.


(** ** [default_basis] *)

(** C5. When none of ['X_pca'], ['X_tsne'], ['X_umap'] is a key of
    [obsm], [default_basis] raises the error "No basis specified.";
    when all three are keys of [obsm], it returns ['umap']. *)
Theorem default_basis_none_or_umap (ad : AnnData) :
  (obsm ad !! "X_pca" = None → obsm ad !! "X_tsne" = None →
   obsm ad !! "X_umap" = None →
   default_basis ad = Raise (ValueError "No basis specified."))
  ∧ (is_Some (obsm ad !! "X_pca") → is_Some (obsm ad !! "X_tsne") →
     is_Some (obsm ad !! "X_umap") →
     default_basis ad = Ok (Some "umap")).
Proof.
  unfold default_basis. rewrite !filter_cons, filter_nil.
  cbv [String.append]. split; intros H1 H2 H3.
  - apply has_key_false in H1, H2, H3. rewrite H1, H2, H3.
    repeat case_decide; done.
  - apply has_key_true in H1, H2, H3. rewrite H1, H2, H3.
    repeat case_decide; done.
Qed.

Lemma default_basis_none_or_umap_witness :
  default_basis cells_no_basis = Raise (ValueError "No basis specified.")
  ∧ default_basis cells = Ok (Some "umap").
Proof.
  split.
  - apply (proj1 (default_basis_none_or_umap cells_no_basis)); reflexivity.
  - apply (proj2 (default_basis_none_or_umap cells)); vm_compute; eauto.
Defined.

(** ** Colour keys and palettes *)

Ltac run_M :=
  unfold bind, ret, lift, raise, get_adata, modify_adata, logg; simpl.

Section ColorKeys.

Context `{Imports}.

(** The dataset after [strings_to_categoricals] has retyped it, which is
    the dataset every test of [interpret_colorkey] looks at. *)
Local Abbreviation retyped st := (strings_to_categoricals (adata st)).

Lemma get_colors_literal c st :
  is_color_like c = true → get_colors c st = (Ok (Color c), st).
Proof. intros Hc. unfold get_colors. rewrite Hc. reflexivity. Qed.

(** C1. A string [c] that is a colour literal and also the name of a
    categorical column of [obs], and that is no gene name, resolves to
    the literal colour [c] itself: no colour array is read off the
    column, and no palette is touched. *)
Theorem interpret_colorkey_prefers_literal
    (c : string) (layer : option string) (perc : option perc_arg)
    (st : state) (cats : list string) (codes : list Z) :
  is_color_like c = true →
  obs (retyped st) !! c = Some (Categorical cats codes) →
  c ∉ var_names (retyped st) →
  interpret_colorkey (CStr c) layer perc st
  = (Ok (Color c), mkState (retyped st) (log st)).
Proof.
  intros Hcol Hobs Hvar.
  unfold interpret_colorkey, is_categorical. run_M.
  rewrite Hobs, Hcol. simpl.
  rewrite bool_decide_eq_false_2 by done. simpl.
  by apply get_colors_literal.
Qed.

(** *** Palettes *)

Lemma for_each_state {A B} (f : A → M B) (l : list A) (st : state) :
  (∀ x s, (f x s).2 = s) → (for_each f l st).2 = st.
Proof.
  intros Hf. revert st. induction l as [|x l IH]; intros st; [done|].
  simpl. unfold bind.
  specialize (Hf x st). destruct (f x st) as [[y|e] s1]; simpl in *; subst; [|done].
  specialize (IH st). destruct (for_each f l st) as [[ys|e] s2]; simpl in *; by subst.
Qed.

Lemma for_each_option {A B} (f : A → M B) (g : A → option B) (e : exn)
    (l : list A) (st : state) :
  (∀ x s, f x s = (from_option Ok (Raise e) (g x), s)) →
  for_each f l st = (from_option Ok (Raise e) (mapM g l), st).
Proof.
  intros Hf. induction l as [|x l IH]; [done|].
  simpl. unfold bind. rewrite Hf.
  destruct (g x) as [y|]; simpl; [|done].
  rewrite IH. by destruct (mapM g l).
Qed.

Lemma adjust_palette_long (p : palette) (n : nat) (st : state) :
  n ≤ length (palette_colors p) → adjust_palette p n st = (Ok p, st).
Proof.
  intros Hn. unfold adjust_palette.
  by rewrite (proj2 (Nat.ltb_ge _ _) Hn).
Qed.

(** C3. A palette with fewer colours than the requested length is
    replaced by a fallback chosen from the length alone: the table
    [default_26] up to 28 categories, the table [default_64] up to its
    own size, and beyond that as many times ['grey'] as requested
    (noted in the log).  The result is a list or a cycler as the
    palette given was. *)
Theorem adjust_palette_fallback (p : palette) (n : nat) (st : state) :
  length (palette_colors p) < n →
  28 ≤ length default_64 →
  (n ≤ 28 → adjust_palette p n st = (Ok (recolor p default_26), st))
  ∧ (28 < n ≤ length default_64 →
     adjust_palette p n st = (Ok (recolor p default_64), st))
  ∧ (length default_64 < n →
     adjust_palette p n st
     = (Ok (recolor p (repeat "grey" n)),
        mkState (adata st)
          (log st ++ [LogInfo ["more than 103 colors would be required, initializing as 'grey'"]])))
  ∧ (∀ p', length (palette_colors p') < n → is_list p' = is_list p →
           adjust_palette p' n st = adjust_palette p n st).
Proof.
  intros Hshort H64. unfold adjust_palette, recolor.
  rewrite (proj2 (Nat.ltb_lt _ _) Hshort).
  repeat split.
  - intros Hn. by rewrite (proj2 (Nat.leb_le _ _) Hn).
  - intros [Hlo Hhi].
    rewrite (proj2 (Nat.leb_gt _ _) Hlo), (proj2 (Nat.leb_le _ _) Hhi). done.
  - intros Hn.
    rewrite (proj2 (Nat.leb_gt n 28)) by lia.
    rewrite (proj2 (Nat.leb_gt _ _) Hn). done.
  - intros p' Hshort' Hkind.
    rewrite (proj2 (Nat.ltb_lt _ _) Hshort'), Hkind. done.
Qed.

(** *** [get_colors] *)

Lemma get_colors_read (ad : AnnData) (c : string) (codes : list Z)
    (pal : list string) (n : nat) (st : state) :
  uns ad !! (c +:+ "_colors") = Some pal →
  for_each (color_at ad c codes) (seq 0 n) st
  = (from_option Ok (Raise IndexError) (lookup_colors pal codes n), st).
Proof.
  intros Huns. unfold lookup_colors.
  apply for_each_option. intros i s. unfold color_at. rewrite Huns.
  destruct (codes !! i) as [k|]; simpl; [|done].
  by destruct (Py.getitem pal k).
Qed.

Lemma get_colors_stored (c : string) (st : state) cats codes pal :
  is_color_like c = false →
  obs (adata st) !! c = Some (Categorical cats codes) →
  uns (adata st) !! (c +:+ "_colors") = Some pal →
  get_colors c st = (colors_read pal codes (n_obs (adata st)), st).
Proof.
  intros Hlit Hobs Huns. unfold get_colors, colors_read. rewrite Hlit. run_M.
  rewrite (proj2 (has_key_true _ _)) by (rewrite Huns; eauto). simpl.
  unfold obs_cat. rewrite Hobs. simpl.
  rewrite (get_colors_read _ _ _ pal) by done. simpl.
  by destruct (lookup_colors pal codes (n_obs (adata st))).
Qed.

Lemma get_colors_generates (c : string) (st : state) cats codes :
  is_color_like c = false →
  obs (adata st) !! c = Some (Categorical cats codes) →
  uns (adata st) !! (c +:+ "_colors") = None →
  (get_colors c st).1
  = colors_read (generated_palette (length cats)) codes (n_obs (adata st))
  ∧ adata (get_colors c st).2
    = set_uns (adata st)
        (<[c +:+ "_colors" := generated_palette (length cats)]> (uns (adata st))).
Proof.
  intros Hlit Hobs Huns. unfold get_colors, colors_read. rewrite Hlit. run_M.
  rewrite (proj2 (has_key_false _ _)) by done. simpl.
  unfold obs_cat. rewrite Hobs. simpl.
  set (n := length cats).
  assert (∃ lg, adjust_palette (PaletteCycler rc_prop_cycle) n st
                = (Ok (PaletteCycler
                         (if (length rc_prop_cycle <? n)%nat
                          then if (n <=? 28)%nat then default_26
                               else if (n <=? length default_64)%nat then default_64
                               else repeat "grey" n
                          else rc_prop_cycle)),
                   mkState (adata st) lg)) as [lg ->].
  { unfold adjust_palette. simpl.
    destruct (length rc_prop_cycle <? n)%nat; [|by exists (log st); destruct st].
    destruct (n <=? 28)%nat; [by exists (log st); destruct st|].
    destruct (n <=? length default_64)%nat; [by exists (log st); destruct st|].
    run_M. eauto. }
  simpl. rewrite Hobs. simpl.
  fold (generated_palette n).
  rewrite (get_colors_read _ _ _ (generated_palette n))
    by (simpl; apply lookup_insert_eq).
  simpl. by destruct (lookup_colors (generated_palette n) codes (n_obs (adata st))).
Qed.

Lemma get_colors_frame (c : string) (st : state) :
  is_Some (uns (adata st) !! (c +:+ "_colors")) → (get_colors c st).2 = st.
Proof.
  intros Huns. unfold get_colors.
  destruct (is_color_like c); [done|]. run_M.
  rewrite (proj2 (has_key_true _ _)) by done. simpl.
  destruct (obs_cat (adata st) c) as [cc|e]; [|done].
  match goal with
  | |- (let (_, _) := for_each ?f ?l ?s in _).2 = _ =>
      pose proof (for_each_state f l s) as Hst; destruct (for_each f l s) as [[cs|e] s']
  end; simpl in *; apply Hst; intros i s; unfold color_at;
    destruct (uns (adata st) !! (c +:+ "_colors")); try done;
    destruct (cc.2 !! i) as [k|]; try done;
    by destruct (Py.getitem _ k).
Qed.

Lemma generated_palette_length (n : nat) :
  n < 27 → 26 ≤ length default_26 → length (generated_palette n) = n.
Proof.
  intros Hn H26. unfold generated_palette. rewrite length_take.
  destruct (length rc_prop_cycle <? n)%nat eqn:Hrc.
  - rewrite (proj2 (Nat.leb_le n 28)) by lia. lia.
  - apply Nat.ltb_ge in Hrc. lia.
Qed.

(** C4, amended.  For a categorical annotation [c] that is not itself
    a colour literal, has fewer than 27 categories and no stored
    palette, [get_colors] generates a palette with as many colours as
    there are categories and stores it in [uns] under
    [c + '_colors']; nothing else in the dataset changes. *)
Theorem get_colors_caches_palette (c : string) (st : state)
    (cats : list string) (codes : list Z) :
  is_color_like c = false →
  obs (adata st) !! c = Some (Categorical cats codes) →
  length cats < 27 →
  uns (adata st) !! (c +:+ "_colors") = None →
  26 ≤ length default_26 →
  ∃ pal, length cats ≤ length pal
         ∧ uns (adata (get_colors c st).2) !! (c +:+ "_colors") = Some pal
         ∧ adata (get_colors c st).2
           = set_uns (adata st) (<[c +:+ "_colors" := pal]> (uns (adata st))).
Proof.
  intros Hlit Hobs Hn Huns H26.
  destruct (get_colors_generates c st cats codes Hlit Hobs Huns) as [_ Had].
  exists (generated_palette (length cats)). split_and!.
  - by rewrite generated_palette_length.
  - rewrite Had. simpl. apply lookup_insert_eq.
  - done.
Qed.

(** C9, amended.  For a categorical annotation [c] whose palette
    [c + '_colors'] is stored in [uns], [get_colors] changes nothing,
    neither the metadata nor anything else, so that a second call
    answers as the first; when [c] is not itself a colour literal, the
    answer is read off the stored palette, one colour per observation
    by its category code. *)
Theorem get_colors_keeps_stored_palette (c : string) (st : state)
    (cats : list string) (codes : list Z) (pal : list string) :
  obs (adata st) !! c = Some (Categorical cats codes) →
  uns (adata st) !! (c +:+ "_colors") = Some pal →
  (get_colors c st).2 = st
  ∧ get_colors c (get_colors c st).2 = get_colors c st
  ∧ (is_color_like c = false →
     (get_colors c st).1 = colors_read pal codes (n_obs (adata st))).
Proof.
  intros Hobs Huns.
  assert ((get_colors c st).2 = st) as Hst by (apply get_colors_frame; eauto).
  split_and!; [done|by rewrite Hst|].
  intros Hlit. by rewrite (get_colors_stored c st cats codes pal).
Qed.

(** *** [interpret_colorkey] *)




(** What [get_colors] answers for a categorical annotation that is no
    colour literal: the colours read off the palette in use. *)
Lemma get_colors_in_use (c : string) (st : state) cats codes :
  is_color_like c = false →
  obs (adata st) !! c = Some (Categorical cats codes) →
  (get_colors c st).1
  = colors_read (palette_in_use (adata st) c cats) codes (n_obs (adata st)).
Proof.
  intros Hlit Hobs. unfold palette_in_use.
  destruct (uns (adata st) !! (c +:+ "_colors")) as [pal|] eqn:Huns; simpl.
  - by rewrite (get_colors_stored c st cats codes pal).
  - by apply get_colors_generates.
Qed.

#[local] Arguments clip_value : simpl never.


End ColorKeys.

Lemma interpret_colorkey_prefers_literal_witness :
  @interpret_colorkey example_imports (CStr "red") None None (mkState cells [])
  = (Ok (Color "red"), mkState (retype_strings cells) []).
Proof.
  apply (@interpret_colorkey_prefers_literal example_imports "red" None None
           (mkState cells []) ["high"; "low"] [0; 0; 1; 1]%Z).
  - reflexivity.
  - vm_compute. reflexivity.
  - vm_compute. intros Hin.
    repeat (apply elem_of_cons in Hin as [Hin|Hin]; [discriminate|]).
    by apply not_elem_of_nil in Hin.
Defined.

Lemma adjust_palette_fallback_witness :
  @adjust_palette example_imports (PaletteCycler tab10) 12 (mkState cells [])
  = (Ok (PaletteCycler table_26), mkState cells []).
Proof.
  refine (proj1 (@adjust_palette_fallback example_imports (PaletteCycler tab10) 12
                   (mkState cells []) _ _) _); vm_compute; lia.
Defined.

Lemma get_colors_caches_palette_witness :
  ∃ pal, 3 ≤ length pal
         ∧ uns (adata (@get_colors example_imports "clusters"
                         (mkState cells_no_palette [])).2) !! "clusters_colors"
           = Some pal
         ∧ adata (@get_colors example_imports "clusters"
                    (mkState cells_no_palette [])).2
           = set_uns cells_no_palette (<["clusters_colors" := pal]> ∅).
Proof.
  apply (@get_colors_caches_palette example_imports "clusters"
           (mkState cells_no_palette []) ["B"; "NK"; "T"] [0; 2; 1; 2]%Z).
  - reflexivity.
  - reflexivity.
  - simpl. lia.
  - reflexivity.
  - vm_compute. lia.
Defined.

(** C4 as worded fails for an annotation whose name is a colour: for
    the categorical column ['red'], which has two categories and no
    stored palette, [get_colors] answers the literal and stores
    nothing. *)
Lemma get_colors_literal_caches_nothing :
  ¬ @caches_generated_palette example_imports (mkState cells_no_palette []) "red".
Proof.
  intros Hclaim.
  destruct (Hclaim ["high"; "low"] [0; 0; 1; 1]%Z) as [pal [Hpal _]].
  - reflexivity.
  - simpl. lia.
  - reflexivity.
  - vm_compute in Hpal. discriminate.
Qed.

Lemma get_colors_keeps_stored_palette_witness :
  (@get_colors example_imports "clusters" (mkState cells [])).2 = mkState cells []
  ∧ @get_colors example_imports "clusters"
      (@get_colors example_imports "clusters" (mkState cells [])).2
    = @get_colors example_imports "clusters" (mkState cells [])
  ∧ (named_color "clusters" = false →
     (@get_colors example_imports "clusters" (mkState cells [])).1
     = colors_read ["#1f77b4"; "#ff7f0e"; "#2ca02c"] [0; 2; 1; 2]%Z 4).
Proof.
  apply (@get_colors_keeps_stored_palette example_imports "clusters"
           (mkState cells []) ["B"; "NK"; "T"] [0; 2; 1; 2]%Z
           ["#1f77b4"; "#ff7f0e"; "#2ca02c"]); reflexivity.
Defined.

(** C9 as worded fails for an annotation whose name is a colour: the
    palette stored for the column ['red'] is not read, the answer is
    the literal. *)
Lemma get_colors_literal_ignores_palette :
  ¬ @reads_stored_palette example_imports (mkState cells []) "red".
Proof.
  intros Hclaim.
  destruct (Hclaim ["high"; "low"] [0; 0; 1; 1]%Z ["orange"; "purple"])
    as [Hread _]; [reflexivity..|].
  vm_compute in Hread. discriminate.
Qed.



(** ** Plot keys *)

Section PlotKeys.

Lemma elem_of_unique_from (seen l : list string) (x : string) :
  x ∈ Py.unique_from seen l ↔ x ∈ l ∧ x ∉ seen.
Proof.
  revert seen. induction l as [|y l IH]; intros seen; simpl.
  - rewrite elem_of_nil. tauto.
  - case_bool_decide as Hy.
    + rewrite IH, elem_of_cons. split; [tauto|].
      intros [[->|Hx] Hn]; [done|tauto].
    + rewrite !elem_of_cons, IH, elem_of_cons. split.
      * intros [->|(Hx & Hn)]; [tauto|]. split; [tauto|]. tauto.
      * intros [[->|Hx] Hn]; [tauto|].
        destruct (decide (x = y)) as [->|Hne]; [tauto|]. right. tauto.
Qed.



Lemma elem_of_unique (l : list string) (x : string) : x ∈ Py.unique l ↔ x ∈ l.
Proof. unfold Py.unique. rewrite elem_of_unique_from, elem_of_nil. tauto. Qed.


Lemma extends_refl st : extends st st.
Proof.
  split; [split; [done|by destruct st as [[] ?]]|].
  exists []. by rewrite app_nil_r.
Qed.

Lemma extends_trans st1 st2 st3 : extends st1 st2 → extends st2 st3 → extends st1 st3.
Proof.
  intros [[Hs1 He1] (i1 & Hi1 & Hl1)] [[Hs2 He2] (i2 & Hi2 & Hl2)]. split.
  - split; [by etrans|]. rewrite He2, He1. by destruct (adata st1).
  - exists (i1 ++ i2). rewrite forallb_app, Hi1, Hi2, Hl2, Hl1, app_assoc. done.
Qed.

Lemma check_basis_extends (basis : string) (st : state) :
  ∃ st', check_basis basis st = (Ok tt, st') ∧ extends st st'.
Proof.
  unfold check_basis. run_M.
  destruct (obsm (adata st) !! basis) as [e|] eqn:Hb;
    [|eexists; split; [done|apply extends_refl]].
  destruct (has_key (obsm (adata st)) ("X_" +:+ basis)) eqn:Hx; simpl;
    [eexists; split; [done|apply extends_refl]|].
  eexists. split; [done|]. split; simpl.
  - split; simpl; [|by destruct (adata st)].
    apply insert_subseteq. by apply has_key_false.
  - eexists. split; [|reflexivity]. reflexivity.
Qed.

Lemma strip_and_check_extends (keys : list string) (st : state) :
  ∃ st', strip_and_check keys st = (Ok (strip_X <$> keys), st') ∧ extends st st'.
Proof.
  revert st. induction keys as [|key keys IH]; intros st; simpl.
  - eexists. split; [done|apply extends_refl].
  - unfold bind.
    destruct (check_basis_extends (strip_X key) st) as (st1 & -> & H1).
    destruct (IH st1) as (st2 & -> & H2).
    eexists. split; [done|]. by eapply extends_trans.
Qed.


End PlotKeys.



(** The same canonical name reached from two spellings stays twice in
    the result. *)
Example make_unique_valid_list_repeats_key :
  (make_unique_valid_list (KeyList ["X_umap"; "umap"; "clusters"; "nope"])
     (mkState cells [])).1
  = Ok ["umap"; "umap"; "clusters"].
Proof. vm_compute. reflexivity. Qed.

(** ** Saving figures *)

Section SaveFigure.

Context (settings : Settings) (rc_savefig_dpi : dpi_value) (figdir_exists : bool).

Lemma length_append (s t : string) :
  String.length (s +:+ t) = String.length s + String.length t.
Proof. induction s as [|a s IH]; simpl; [done|]. by rewrite IH. Qed.

Lemma drop_chars_append (s t : string) :
  Py.drop_chars (String.length (s +:+ t) - String.length t) (s +:+ t) = t.
Proof.
  rewrite length_append.
  replace (String.length s + String.length t - String.length t)
    with (String.length s) by lia.
  induction s as [|a s IH]; simpl; [by destruct t|done].
Qed.

Lemma endswith_append (s t u : string) :
  String.length u = String.length t →
  Py.endswith (s +:+ t) u = String.eqb t u.
Proof.
  intros Hlen. unfold Py.endswith.
  rewrite Hlen, drop_chars_append, length_append.
  rewrite (proj2 (Nat.leb_le _ _)) by lia. done.
Qed.

(** What the loop over the three extensions finds in a name that ends
    with one of them. *)
Lemma find_ext_known (base e : string) :
  e ∈ [".svg"; ".pdf"; ".png"] →
  find_ext [".svg"; ".pdf"; ".png"] None (base +:+ e)
  = (Some (Py.drop_chars 1 e), Py.replace (base +:+ e) e "").
Proof.
  intros He. simpl.
  repeat (apply elem_of_cons in He as [->|He]);
    [..|by apply elem_of_nil in He];
    by rewrite !endswith_append by done.
Qed.

(** The file written for a name [base + e] with a known extension [e]:
    its extension is [e] without the dot, and its base name is what
    [replace] leaves of the name. *)
Lemma savefig_or_show_filename (writekey : option string) (show : option bool)
    (dpi : option Q) (base e : string) :
  e ∈ [".svg"; ".pdf"; ".png"] →
  ∃ dpi',
    SaveFig (figdir settings +:+ plot_prefix settings
             +:+ (stem writekey +:+ Py.replace (base +:+ e) e "")
             +:+ plot_suffix settings +:+ "." +:+ Py.drop_chars 1 e) dpi'
    ∈ (savefig_or_show settings rc_savefig_dpi figdir_exists
         writekey show dpi None (SaveStr (base +:+ e))).1.
Proof.
  intros He. unfold savefig_or_show.
  rewrite (find_ext_known base e He). cbv zeta. cbv iota.
  set (fn := (figdir settings +:+ _)%string).
  destruct dpi as [d|].
  - exists (Some (DpiNumber d)). simpl.
    rewrite !elem_of_app, !elem_of_cons. tauto.
  - destruct rc_savefig_dpi as [nm|d].
    + exists (Some (DpiName nm)). simpl.
      rewrite !elem_of_app, !elem_of_cons. tauto.
    + destruct (Np.Qltb d 150) eqn:Hd.
      * exists None. destruct (low_resolution_warning settings); simpl;
          rewrite ?elem_of_cons, !elem_of_app, !elem_of_cons; tauto.
      * exists (Some (DpiNumber d)). simpl.
        rewrite !elem_of_app, !elem_of_cons. tauto.
Qed.

(** When the extension occurs in the name only at its end, [replace]
    leaves the name without the extension. *)
Lemma prefix_refl (e : string) : String.prefix e e = true.
Proof.
  induction e as [|a e IH]; simpl; [done|]. by destruct (ascii_dec a a).
Qed.

Lemma replace_from_skip (old new s : string) (k : nat) :
  String.length s ≤ k → Py.replace_from old new k s = "".
Proof.
  revert k. induction s as [|c s IH]; intros k Hk; [done|].
  destruct k as [|k]; simpl in *; [lia|]. apply IH. lia.
Qed.

Lemma replace_suffix_only (base e : string) :
  e ≠ "" →
  (∀ i, i < String.length base →
        String.prefix e (Py.drop_chars i (base +:+ e)) = false) →
  Py.replace (base +:+ e) e "" = base.
Proof.
  intros Hne Hocc. unfold Py.replace.
  induction base as [|a base IH].
  - change ("" +:+ e) with e.
    destruct e as [|b e]; [done|].
    cbn [Py.replace_from]. rewrite prefix_refl.
    rewrite replace_from_skip by (simpl; lia). done.
  - change (String a base +:+ e) with (String a (base +:+ e)) in *.
    cbn [Py.replace_from].
    assert (String.prefix e (String a (base +:+ e)) = false) as ->
      by (apply (Hocc 0); simpl; lia).
    rewrite IH; [done|].
    intros i Hi. apply (Hocc (S i)). simpl. lia.
Qed.

End SaveFigure.

(** C7.  A name in which the extension occurs twice loses both
    occurrences: saving as ['fig.png_v2.png'] writes
    ['fig_v2.png'], where the name with its extension removed is
    ['fig.png_v2']. *)
Theorem savefig_or_show_repeated_extension :
  (savefig_or_show example_settings (DpiNumber 200) true
     (Some "umap") (Some false) None None (SaveStr "fig.png_v2.png")).1
  = [LoggMsg ["saving figure to file"; "./figures/scvelo_umap_fig_v2.png"];
     SaveFig "./figures/scvelo_umap_fig_v2.png" (Some (DpiNumber 200));
     CloseFig].
Proof. vm_compute. reflexivity. Qed.

(** ** Percentiles and clipping *)

Section Percentiles.

Lemma Qle_bool_trans : Transitive (λ x y : Q, is_true (Qle_bool x y)).
Proof.
  intros x y z Hxy Hyz. apply Qle_bool_iff. apply Qle_bool_iff in Hxy, Hyz.
  by eapply Qle_trans.
Qed.

Lemma sort_sorted (c : list Q) : StronglySorted Qle (QSort.sort c).
Proof.
  pose proof (QSort.StronglySorted_sort c Qle_bool_trans) as Hs.
  induction Hs as [|a l Hl IH Ha]; constructor; [done|].
  eapply Forall_impl; [exact Ha|]. intros y Hy. by apply Qle_bool_iff.
Qed.

Lemma sorted_nth (s : list Q) :
  StronglySorted Qle s →
  ∀ i j, i ≤ j → j < length s → (nth i s 0 <= nth j s 0)%Q.
Proof.
  induction 1 as [|a l Hl IH Ha]; intros i j Hij Hj; simpl in Hj; [lia|].
  destruct j as [|j].
  - replace i with 0 by lia. apply Qle_refl.
  - destruct i as [|i]; simpl.
    + rewrite Forall_forall in Ha. apply Ha, list_elem_of_In, nth_In. lia.
    + apply IH; lia.
Qed.

Lemma length_sort (c : list Q) : length (QSort.sort c) = length c.
Proof. symmetry. apply Permutation_length, QSort.Permuted_sort. Qed.

Lemma elem_of_sort (c : list Q) (x : Q) :
  x ∈ c → ∃ i, i < length c ∧ nth i (QSort.sort c) 0%Q = x.
Proof.
  intros Hx. apply list_elem_of_In in Hx.
  apply (Permutation_in _ (QSort.Permuted_sort c)) in Hx.
  destruct (In_nth _ _ 0%Q Hx) as (i & Hi & Hnth).
  exists i. by rewrite <- length_sort.
Qed.

(** The rank a percentile is read at. *)
Lemma rank_bounds (n : nat) (q : Q) :
  1 ≤ n → (0 <= q)%Q → (q <= 100)%Q →
  let v := (inject_Z (Z.of_nat n - 1) * (q / 100))%Q in
  (0 <= v)%Q ∧ (v <= inject_Z (Z.of_nat n - 1))%Q
  ∧ (0 ≤ Qfloor v ≤ Z.of_nat n - 1)%Z
  ∧ (0 <= v - inject_Z (Qfloor v))%Q ∧ (v - inject_Z (Qfloor v) <= 1)%Q.
Proof.
  intros Hn H0 H100 v.
  assert (0 <= inject_Z (Z.of_nat n - 1))%Q as HN.
  { change 0%Q with (inject_Z 0). rewrite <- Zle_Qle. lia. }
  assert (0 <= q / 100)%Q as Ht0 by (apply Qle_shift_div_l; lra).
  assert (q / 100 <= 1)%Q as Ht1 by (apply Qle_shift_div_r; lra).
  assert (0 <= v)%Q as Hv0 by (unfold v; nra).
  assert (v <= inject_Z (Z.of_nat n - 1))%Q as Hv1 by (unfold v; nra).
  split_and!; try done.
  - change 0%Z with (Qfloor 0). by apply Qfloor_resp_le.
  - rewrite <- (Qfloor_Z (Z.of_nat n - 1)). by apply Qfloor_resp_le.
  - pose proof (Qfloor_le v). lra.
  - pose proof (Qlt_floor v) as Hlt. rewrite inject_Z_plus in Hlt.
    change (inject_Z 1) with 1%Q in Hlt. lra.
Qed.


(** A percentile lies between the entries at the two ranks around it. *)
Lemma lerp_sorted_between (s : list Q) (q : Q) :
  StronglySorted Qle s → s ≠ [] → (0 <= q)%Q → (q <= 100)%Q →
  let lo := Z.to_nat (Qfloor (inject_Z (Z.of_nat (length s) - 1) * (q / 100))) in
  (nth lo s 0 <= Np.lerp_sorted s q)%Q
  ∧ (Np.lerp_sorted s q <= nth (Nat.min (lo + 1) (length s - 1)) s 0)%Q.
Proof.
  intros Hs Hne H0 H100.
  assert (1 ≤ length s) as Hn by (destruct s; [done|simpl; lia]).
  destruct (rank_bounds (length s) q Hn H0 H100) as (_ & _ & Hf & Hg0 & Hg1).
  unfold Np.lerp_sorted.
  set (v := (inject_Z (Z.of_nat (length s) - 1) * (q / 100))%Q) in *.
  set (lo := Z.to_nat (Qfloor v)).
  set (hi := Nat.min (lo + 1) (length s - 1)).
  set (g := (v - inject_Z (Qfloor v))%Q) in *.
  assert (lo ≤ hi ∧ hi < length s) as [Hlh Hhi] by (unfold hi, lo; lia).
  pose proof (sorted_nth s Hs lo hi Hlh Hhi) as Hab.
  simpl. split; nra.
Qed.

Lemma lerp_sorted_bounds (s : list Q) (q : Q) :
  StronglySorted Qle s → s ≠ [] → (0 <= q)%Q → (q <= 100)%Q →
  (nth 0 s 0 <= Np.lerp_sorted s q)%Q
  ∧ (Np.lerp_sorted s q <= nth (length s - 1) s 0)%Q.
Proof.
  intros Hs Hne H0 H100.
  assert (1 ≤ length s) as Hn by (destruct s; [done|simpl; lia]).
  destruct (rank_bounds (length s) q Hn H0 H100) as (_ & _ & Hf & _).
  destruct (lerp_sorted_between s q Hs Hne H0 H100) as [Hlo Hhi].
  set (lo := Z.to_nat _) in *.
  pose proof (sorted_nth s Hs 0 lo ltac:(lia) ltac:(unfold lo; lia)) as Ha.
  pose proof (sorted_nth s Hs (Nat.min (lo + 1) (length s - 1)) (length s - 1)
                ltac:(lia) ltac:(lia)) as Hb.
  split; lra.
Qed.

(** The percentile 100 is the maximum, the percentile 0 the minimum. *)
Lemma lerp_sorted_100 (s : list Q) :
  StronglySorted Qle s → s ≠ [] →
  (nth (length s - 1) s 0 <= Np.lerp_sorted s 100)%Q.
Proof.
  intros Hs Hne.
  destruct (lerp_sorted_between s 100 Hs Hne ltac:(lra) ltac:(lra)) as [Hlo _].
  assert (Qfloor (inject_Z (Z.of_nat (length s) - 1) * (100 / 100))
          = (Z.of_nat (length s) - 1)%Z) as Hf.
  { rewrite <- (Qfloor_Z (Z.of_nat (length s) - 1)) at 2.
    apply Qfloor_comp. field. }
  rewrite Hf in Hlo.
  replace (Z.to_nat (Z.of_nat (length s) - 1)) with (length s - 1) in Hlo by lia.
  done.
Qed.

Lemma lerp_sorted_0 (s : list Q) :
  StronglySorted Qle s → s ≠ [] → (Np.lerp_sorted s 0 <= nth 0 s 0)%Q.
Proof.
  intros Hs Hne. unfold Np.lerp_sorted.
  set (v := (inject_Z (Z.of_nat (length s) - 1) * (0 / 100))%Q).
  assert (v == 0)%Q as Hv by (unfold v; field).
  assert (Qfloor v = 0%Z) as Hf by (change 0%Z with (Qfloor 0); by apply Qfloor_comp).
  rewrite Hf. change (inject_Z 0) with 0%Q. change (Z.to_nat 0) with 0%nat.
  clearbody v. rewrite Hv. lra.
Qed.

(** Percentiles grow with their argument. *)
Lemma lerp_sorted_mono (s : list Q) (q1 q2 : Q) :
  StronglySorted Qle s → s ≠ [] →
  (0 <= q1)%Q → (q1 <= q2)%Q → (q2 <= 100)%Q →
  (Np.lerp_sorted s q1 <= Np.lerp_sorted s q2)%Q.
Proof.
  intros Hs Hne H0 H12 H100.
  assert (1 ≤ length s) as Hn by (destruct s; [done|simpl; lia]).
  assert (0 <= q2)%Q as H0' by lra. assert (q1 <= 100)%Q as H100' by lra.
  destruct (rank_bounds (length s) q1 Hn H0 H100') as (_ & _ & Hf1 & _).
  destruct (rank_bounds (length s) q2 Hn H0' H100) as (_ & _ & Hf2 & _).
  destruct (lerp_sorted_between s q1 Hs Hne H0 H100') as [Hlo1 Hhi1].
  destruct (lerp_sorted_between s q2 Hs Hne H0' H100) as [Hlo2 Hhi2].
  set (N := inject_Z (Z.of_nat (length s) - 1)) in *.
  assert (0 <= N)%Q as HN.
  { unfold N. change 0%Q with (inject_Z 0). rewrite <- Zle_Qle. lia. }
  assert (q1 / 100 <= q2 / 100)%Q as Ht.
  { apply Qle_shift_div_l; [lra|]. field_simplify. lra. }
  assert (N * (q1 / 100) <= N * (q2 / 100))%Q as Hv by nra.
  pose proof (Qfloor_resp_le _ _ Hv) as Hf.
  set (v1 := (N * (q1 / 100))%Q) in *. set (v2 := (N * (q2 / 100))%Q) in *.
  destruct (decide (Qfloor v1 = Qfloor v2)) as [Heq|Hlt].
  - unfold Np.lerp_sorted. fold N v1 v2. rewrite Heq.
    set (lo := Z.to_nat (Qfloor v2)).
    pose proof (sorted_nth s Hs lo (Nat.min (lo + 1) (length s - 1))
                  ltac:(lia) ltac:(unfold lo; lia)) as Hab.
    nra.
  - set (lo1 := Z.to_nat (Qfloor v1)) in *. set (lo2 := Z.to_nat (Qfloor v2)) in *.
    pose proof (sorted_nth s Hs (Nat.min (lo1 + 1) (length s - 1)) lo2
                  ltac:(unfold lo1, lo2; lia) ltac:(unfold lo2; lia)) as Hmid.
    lra.
Qed.

Lemma percentile_pair (c : list Q) (lo hi : Q) :
  c ≠ [] → (0 <= lo)%Q → (lo <= 100)%Q → (0 <= hi)%Q → (hi <= 100)%Q →
  Np.percentile c [lo; hi]
  = Ok [Np.lerp_sorted (QSort.sort c) lo; Np.lerp_sorted (QSort.sort c) hi].
Proof.
  intros Hne Hl0 Hl1 Hh0 Hh1. unfold Np.percentile, Np.valid_percentile. simpl.
  rewrite !(proj2 (Qle_bool_iff _ _)) by done. simpl. by destruct c.
Qed.

Lemma sort_nonempty (c : list Q) : c ≠ [] → QSort.sort c ≠ [].
Proof.
  intros Hne Hs. apply Hne, length_zero_iff_nil.
  by rewrite <- length_sort, Hs.
Qed.

Lemma Qltb_true (x y : Q) : Np.Qltb x y = true ↔ (x < y)%Q.
Proof.
  unfold Np.Qltb. rewrite negb_true_iff, <- not_true_iff_false, Qle_bool_iff.
  split; [apply Qnot_le_lt|apply Qlt_not_le].
Qed.

Lemma Qltb_false (x y : Q) : Np.Qltb x y = false ↔ (y <= x)%Q.
Proof. unfold Np.Qltb. by rewrite negb_false_iff, Qle_bool_iff. Qed.

(** Every entry of the sample lies between its percentiles 0 and 100. *)
Lemma sample_between (c : list Q) (x : Q) :
  x ∈ c →
  (Np.lerp_sorted (QSort.sort c) 0 <= x)%Q
  ∧ (x <= Np.lerp_sorted (QSort.sort c) 100)%Q.
Proof.
  intros Hx.
  assert (c ≠ []) as Hne by (intros ->; by apply elem_of_nil in Hx).
  destruct (elem_of_sort c x Hx) as (i & Hi & <-).
  pose proof (sort_sorted c) as Hs. pose proof (sort_nonempty c Hne) as Hsne.
  pose proof (lerp_sorted_0 _ Hs Hsne) as H0.
  pose proof (lerp_sorted_100 _ Hs Hsne) as H100.
  rewrite <- length_sort in Hi.
  pose proof (sorted_nth _ Hs 0 i ltac:(lia) Hi) as Hlo.
  pose proof (sorted_nth _ Hs i (length (QSort.sort c) - 1) ltac:(lia) ltac:(lia))
    as Hhi.
  split; lra.
Qed.

(** Clipping between two percentiles: the entries below the lower one
    are raised to it, those above the upper one are lowered to it, and
    the entries in between stay. *)
Lemma clip_pair (c : list Q) (lo hi : Q) :
  c ≠ [] → (0 <= lo)%Q → (lo <= hi)%Q → (hi <= 100)%Q →
  ∃ lb ub,
    Np.percentile c [lo; hi] = Ok [lb; ub]
    ∧ (lb <= ub)%Q
    ∧ clip c (PercPair lo hi)
      = Ok (map (λ x, if Np.Qltb x lb then lb else if Np.Qltb ub x then ub else x) c).
Proof.
  intros Hne H0 Hlh H100.
  exists (Np.lerp_sorted (QSort.sort c) lo), (Np.lerp_sorted (QSort.sort c) hi).
  assert (Np.lerp_sorted (QSort.sort c) lo <= Np.lerp_sorted (QSort.sort c) hi)%Q
    as Hle by (apply lerp_sorted_mono; auto using sort_sorted, sort_nonempty).
  split_and!; [apply percentile_pair; first [done|lra]|done|].
  unfold clip. rewrite percentile_pair by first [done|lra].
  f_equal. apply map_ext. intros x.
  unfold Np.clip1, Np.maximum, Np.minimum.
  destruct (Np.Qltb x _) eqn:Hx; [|done].
  by rewrite (proj2 (Qltb_false _ _) Hle).
Qed.

Lemma unchanged_below_clipped (c : list Q) (lb ub : Q) :
  unchanged_below c
    (map (λ x, if Np.Qltb x lb then lb else if Np.Qltb ub x then ub else x) c) lb
  = 0.
Proof.
  unfold unchanged_below. induction c as [|x c IH]; [done|]. simpl.
  destruct (Np.Qltb x lb) eqn:Hx; simpl; [|done].
  apply Qltb_true in Hx.
  destruct (Qeq_bool x lb) eqn:He; [|done].
  apply Qeq_bool_iff in He. lra.
Qed.

Lemma unchanged_above_clipped (c : list Q) (lb ub : Q) :
  (lb <= ub)%Q →
  unchanged_above c
    (map (λ x, if Np.Qltb x lb then lb else if Np.Qltb ub x then ub else x) c) ub
  = 0.
Proof.
  intros Hle. unfold unchanged_above. induction c as [|x c IH]; [done|]. simpl.
  destruct (Np.Qltb ub x) eqn:Hx; simpl; [|done].
  apply Qltb_true in Hx.
  destruct (Np.Qltb x lb) eqn:Hl.
  - apply Qltb_true in Hl. lra.
  - destruct (Qeq_bool x ub) eqn:He; [|done].
    apply Qeq_bool_iff in He. lra.
Qed.

(** C8, amended.  Clipping a non-empty array with the bounds [2, 98]
    raises every value below the 2nd percentile to it, lowers every
    value above the 98th percentile to it, and leaves the values in
    between as they are: no value beyond the bounds remains
    unchanged. *)
Theorem clip_2_98_clips_both_tails (c : list Q) :
  c ≠ [] →
  ∃ lb ub r,
    Np.percentile c [2; 98]%Q = Ok [lb; ub]
    ∧ (lb <= ub)%Q
    ∧ clip c (PercPair 2 98) = Ok r
    ∧ r = map (λ x, if Np.Qltb x lb then lb else if Np.Qltb ub x then ub else x) c
    ∧ unchanged_below c r lb = 0
    ∧ unchanged_above c r ub = 0.
Proof.
  intros Hne.
  destruct (clip_pair c 2 98 Hne) as (lb & ub & Hp & Hle & Hc); [lra..|].
  exists lb, ub, (map (λ x, if Np.Qltb x lb then lb else if Np.Qltb ub x then ub else x) c).
  split_and!; try done.
  - apply unchanged_below_clipped.
  - by apply unchanged_above_clipped.
Qed.

(** What clipping with a single number computes, in the terms of
    [np.maximum] and [np.minimum]. *)
Lemma clip_scalar_map (c : list Q) (p : Q) :
  c ≠ [] → (0 <= p)%Q → (p <= 100)%Q →
  Np.percentile c [p] = Ok [Np.lerp_sorted (QSort.sort c) p]
  ∧ clip c (PercScalar p)
    = Ok (map (λ x, if Np.Qltb p 50
                    then Np.maximum x (Np.lerp_sorted (QSort.sort c) p)
                    else Np.minimum x (Np.lerp_sorted (QSort.sort c) p)) c).
Proof.
  intros Hne H0 H100.
  pose proof (sort_sorted c) as Hs. pose proof (sort_nonempty c Hne) as Hsne.
  split.
  - unfold Np.percentile, Np.valid_percentile. simpl.
    rewrite !(proj2 (Qle_bool_iff _ _)) by done. simpl. by destruct c.
  - unfold clip. destruct (Np.Qltb p 50) eqn:Hp.
    + rewrite percentile_pair by first [done|lra]. f_equal.
      apply map_ext_in. intros x Hx. apply list_elem_of_In in Hx.
      destruct (sample_between c x Hx) as [_ Hmax].
      pose proof (proj2 (lerp_sorted_bounds _ p Hs Hsne H0 H100)) as Hb.
      pose proof (lerp_sorted_100 _ Hs Hsne) as Htop.
      unfold Np.clip1, Np.minimum.
      rewrite (proj2 (Qltb_false _ _)); [done|].
      unfold Np.maximum. destruct (Np.Qltb x _); lra.
    + rewrite percentile_pair by first [done|lra]. f_equal.
      apply map_ext_in. intros x Hx. apply list_elem_of_In in Hx.
      destruct (sample_between c x Hx) as [Hmin _].
      unfold Np.clip1, Np.maximum.
      by rewrite (proj2 (Qltb_false _ _) Hmin).
Qed.

(** C10.  A single number [perc] stands for the range [perc, 100] when
    it is below 50 and for [0, perc] when it is 50 or more.  On a
    non-empty array, with [perc] within [0, 100] and [b] the
    percentile [perc] of the array, the first raises every value below
    [b] to [b] and leaves every other value as it is; the second
    lowers every value above [b] to [b] and leaves every other value as
    it is.  So one tail is clipped and the other is left alone. *)
Theorem clip_scalar_one_tail (c : list Q) (p : Q) :
  ((p < 50)%Q → clip c (PercScalar p) = clip c (PercPair p 100))
  ∧ ((50 <= p)%Q → clip c (PercScalar p) = clip c (PercPair 0 p))
  ∧ (c ≠ [] → (0 <= p)%Q → (p <= 100)%Q →
     ∃ b r,
       Np.percentile c [p] = Ok [b]
       ∧ clip c (PercScalar p) = Ok r
       ∧ length r = length c
       ∧ ∀ i x y,
           c !! i = Some x → r !! i = Some y →
           ((p < 50)%Q → ((x < b)%Q → y = b) ∧ ((b <= x)%Q → y = x))
           ∧ ((50 <= p)%Q → ((b < x)%Q → y = b) ∧ ((x <= b)%Q → y = x))).
Proof.
  split_and!.
  - intros Hp. unfold clip. by rewrite (proj2 (Qltb_true p 50) Hp).
  - intros Hp. unfold clip. by rewrite (proj2 (Qltb_false p 50) Hp).
  - intros Hne H0 H100.
    destruct (clip_scalar_map c p Hne H0 H100) as [Hperc Hclip].
    set (b := Np.lerp_sorted (QSort.sort c) p) in *.
    eexists b, _. split_and!; [exact Hperc|exact Hclip|apply length_map|].
    intros i x y Hx Hy.
    change (map ?f c) with (f <$> c) in Hy.
    rewrite list_lookup_fmap, Hx in Hy. simpl in Hy. injection Hy as <-.
    split.
    + intros Hp. rewrite (proj2 (Qltb_true p 50) Hp). unfold Np.maximum. split.
      * intros Hlt. by rewrite (proj2 (Qltb_true x b) Hlt).
      * intros Hle. by rewrite (proj2 (Qltb_false x b) Hle).
    + intros Hp. rewrite (proj2 (Qltb_false p 50) Hp). unfold Np.minimum. split.
      * intros Hlt. by rewrite (proj2 (Qltb_true b x) Hlt).
      * intros Hle. by rewrite (proj2 (Qltb_false b x) Hle).
Qed.

End Percentiles.

Lemma clip_2_98_clips_both_tails_witness :
  ∃ lb ub r,
    Np.percentile counts [2; 98]%Q = Ok [lb; ub]
    ∧ (lb <= ub)%Q
    ∧ clip counts (PercPair 2 98) = Ok r
    ∧ r = map (λ x, if Np.Qltb x lb then lb else if Np.Qltb ub x then ub else x)
              counts
    ∧ unchanged_below counts r lb = 0
    ∧ unchanged_above counts r ub = 0.
Proof. apply (clip_2_98_clips_both_tails counts). discriminate. Defined.

(** C8 as worded fails on every non-empty array; here on four counts,
    of which the smallest and the largest are clipped and none stays
    unchanged beyond the bounds. *)
Lemma clip_2_98_leaves_no_tail :
  ¬ leaves_tails_unclipped counts.
Proof.
  intros (lb & ub & r & Hp & Hc & _ & Hlow & _).
  vm_compute in Hp. injection Hp as <- <-.
  vm_compute in Hc. injection Hc as <-.
  vm_compute in Hlow. lia.
Qed.

Lemma clip_scalar_one_tail_witness :
  ∃ b r,
    Np.percentile counts [25%Q] = Ok [b]
    ∧ clip counts (PercScalar 25) = Ok r
    ∧ length r = length counts
    ∧ ∀ i x y,
        counts !! i = Some x → r !! i = Some y →
        ((25 < 50)%Q → ((x < b)%Q → y = b) ∧ ((b <= x)%Q → y = x))
        ∧ ((50 <= 25)%Q → ((b < x)%Q → y = b) ∧ ((x <= b)%Q → y = x)).
Proof.
  apply (proj2 (proj2 (clip_scalar_one_tail counts 25))).
  - discriminate.
  - unfold Qle. simpl. lia.
  - unfold Qle. simpl. lia.
Defined.

(** ** Further properties: colours *)

Section MoreColors.

Context `{Imports}.

Lemma getitem_elem_of {A} (l : list A) (k : Z) (x : A) :
  Py.getitem l k = Some x → x ∈ l.
Proof.
  unfold Py.getitem. intros Hx.
  destruct (k <? 0)%Z; [destruct (- k <=? _)%Z; [|done]|];
    by eapply list_elem_of_lookup_2.
Qed.

Lemma lookup_colors_Some (pal : list string) (codes : list Z) (n : nat)
    (cs : list string) :
  lookup_colors pal codes n = Some cs →
  length cs = n
  ∧ ∀ i col, cs !! i = Some col →
             ∃ k, codes !! i = Some k ∧ Py.getitem pal k = Some col.
Proof.
  unfold lookup_colors. intros Hm. apply mapM_Some in Hm. split.
  - apply Forall2_length in Hm. by rewrite length_seq in Hm.
  - intros i col Hi.
    destruct (Forall2_lookup_r _ _ _ _ _ Hm Hi) as (j & Hj & Hcol).
    apply lookup_seq in Hj as [-> _]. simpl in Hcol.
    destruct (codes !! i) as [k|]; [|done]. eauto.
Qed.

(** Without a column to read the categories from, [get_colors] raises
    what [adata.obs[c].cat] raises and changes nothing. *)
Lemma get_colors_no_cat (c : string) (st : state) (e : exn) :
  is_color_like c = false →
  obs_cat (adata st) c = Raise e →
  get_colors c st = (Raise e, st).
Proof.
  intros Hlit Hcat. unfold get_colors. rewrite Hlit. run_M.
  destruct (has_key _ _); simpl; by rewrite Hcat.
Qed.

(** X1. A key that is no colour literal and names no column of [obs]
    makes [get_colors] raise [KeyError]; one that names a column that
    is not categorical makes it raise [AttributeError].  Either way
    the dataset and the log stay as they were. *)
Theorem get_colors_not_categorical (c : string) (st : state) :
  is_color_like c = false →
  (obs (adata st) !! c = None → get_colors c st = (Raise (KeyError c), st))
  ∧ (∀ col, obs (adata st) !! c = Some col → cat col = false →
            get_colors c st = (Raise AttributeError, st)).
Proof.
  intros Hlit. split.
  - intros Hobs. apply get_colors_no_cat; [done|].
    unfold obs_cat. by rewrite Hobs.
  - intros col Hobs Hcat. apply get_colors_no_cat; [done|].
    unfold obs_cat. rewrite Hobs. by destruct col.
Qed.

(** X2. [get_colors] is idempotent: a second call with the same key
    gives the answer of the first and leaves the dataset as the first
    call left it, whether the palette was stored before or generated
    by the first call. *)
Theorem get_colors_idempotent (c : string) (st : state) :
  get_colors c (get_colors c st).2 = get_colors c st.
Proof.
  destruct (is_color_like c) eqn:Hlit.
  { by rewrite !get_colors_literal. }
  destruct (uns (adata st) !! (c +:+ "_colors")) as [pal|] eqn:Huns.
  { by rewrite get_colors_frame by eauto. }
  destruct (obs_cat (adata st) c) as [[cats codes]|e] eqn:Hcat.
  2: { rewrite (get_colors_no_cat c st e) by done. simpl.
       by rewrite (get_colors_no_cat c st e). }
  assert (obs (adata st) !! c = Some (Categorical cats codes)) as Hobs.
  { unfold obs_cat in Hcat. destruct (obs (adata st) !! c) as [[]|]; congruence. }
  destruct (get_colors_generates c st cats codes Hlit Hobs Huns) as [Hr Had].
  set (st1 := (get_colors c st).2) in *.
  rewrite (get_colors_stored c st1 cats codes (generated_palette (length cats)));
    [|done|by rewrite Had|rewrite Had; apply lookup_insert_eq].
  rewrite Had. simpl. rewrite <- Hr. unfold st1. by destruct (get_colors c st).
Qed.

(** X3. An array of colours returned by [get_colors] has one entry
    per observation, and each entry is a colour of the palette that is
    stored under [c + '_colors'] when the call returns. *)
Theorem get_colors_array_shape (c : string) (st : state) (cs : list string) :
  (get_colors c st).1 = Ok (ColorArray cs) →
  length cs = n_obs (adata st)
  ∧ ∃ pal, uns (adata (get_colors c st).2) !! (c +:+ "_colors") = Some pal
           ∧ ∀ col, col ∈ cs → col ∈ pal.
Proof.
  intros Hr.
  destruct (is_color_like c) eqn:Hlit.
  { by rewrite get_colors_literal in Hr. }
  destruct (obs_cat (adata st) c) as [[cats codes]|e] eqn:Hcat.
  2: { by rewrite (get_colors_no_cat c st e) in Hr. }
  assert (obs (adata st) !! c = Some (Categorical cats codes)) as Hobs.
  { unfold obs_cat in Hcat. destruct (obs (adata st) !! c) as [[]|]; congruence. }
  rewrite (get_colors_in_use c st cats codes Hlit Hobs) in Hr.
  unfold colors_read in Hr.
  destruct (lookup_colors _ codes _) as [cs'|] eqn:Hl; [|done].
  injection Hr as ->.
  apply lookup_colors_Some in Hl as [Hlen Hcol]. split; [done|].
  exists (palette_in_use (adata st) c cats). split.
  - unfold palette_in_use.
    destruct (uns (adata st) !! (c +:+ "_colors")) as [pal|] eqn:Huns; simpl.
    + by rewrite get_colors_frame by eauto.
    + destruct (get_colors_generates c st cats codes Hlit Hobs Huns) as [_ ->].
      simpl. apply lookup_insert_eq.
  - intros col Hin. apply list_elem_of_lookup in Hin as [i Hi].
    destruct (Hcol i col Hi) as (k & _ & Hk). by eapply getitem_elem_of.
Qed.

(** X4. An observation without a category (code [-1]) is given the
    last colour of the palette. *)
Theorem get_colors_missing_value (c : string) (st : state)
    (cats : list string) (codes : list Z) (pal cs : list string) (i : nat) :
  is_color_like c = false →
  obs (adata st) !! c = Some (Categorical cats codes) →
  uns (adata st) !! (c +:+ "_colors") = Some pal →
  (get_colors c st).1 = Ok (ColorArray cs) →
  i < n_obs (adata st) →
  codes !! i = Some (-1)%Z →
  cs !! i = last pal ∧ is_Some (last pal).
Proof.
  intros Hlit Hobs Huns Hr Hi Hcode.
  rewrite (get_colors_stored c st cats codes pal Hlit Hobs Huns) in Hr.
  simpl in Hr. unfold colors_read in Hr.
  destruct (lookup_colors pal codes _) as [cs'|] eqn:Hl; [|done].
  injection Hr as ->.
  apply lookup_colors_Some in Hl as [Hlen Hcol].
  destruct (lookup_lt_is_Some_2 cs i ltac:(lia)) as [col Hc].
  destruct (Hcol i col Hc) as (k & Hk & Hget).
  rewrite Hcode in Hk. injection Hk as <-.
  unfold Py.getitem in Hget. simpl in Hget.
  change (- (-1))%Z with 1%Z in Hget.
  destruct (1 <=? Z.of_nat (length pal))%Z eqn:Hn; [|done].
  rewrite last_lookup, Hc.
  replace (Init.Nat.pred (length pal)) with (Z.to_nat (Z.of_nat (length pal) + -1))
    by lia.
  rewrite Hget. eauto.
Qed.

(** X5. For a categorical annotation without a stored palette whose
    categories are no more than the colours of the colour cycle, the
    palette stored is the beginning of the cycle: category [j] gets
    the [j]-th colour of [rcParams['axes.prop_cycle']]. *)
Theorem get_colors_follows_cycle (c : string) (st : state)
    (cats : list string) (codes : list Z) :
  is_color_like c = false →
  obs (adata st) !! c = Some (Categorical cats codes) →
  uns (adata st) !! (c +:+ "_colors") = None →
  length cats ≤ length rc_prop_cycle →
  uns (adata (get_colors c st).2) !! (c +:+ "_colors")
  = Some (take (length cats) rc_prop_cycle).
Proof.
  intros Hlit Hobs Huns Hn.
  destruct (get_colors_generates c st cats codes Hlit Hobs Huns) as [_ ->].
  simpl. rewrite lookup_insert_eq. unfold generated_palette.
  by rewrite (proj2 (Nat.ltb_ge _ _) Hn).
Qed.

(** X6. Provided the table [default_26] has its 28 colours,
    [adjust_palette] always returns a palette of the kind it was given
    with at least as many colours as asked for, and adjusting that
    palette again changes nothing. *)
Theorem adjust_palette_enough (p : palette) (n : nat) (st : state) :
  28 ≤ length default_26 →
  ∃ p' st',
    adjust_palette p n st = (Ok p', st')
    ∧ n ≤ length (palette_colors p')
    ∧ is_list p' = is_list p
    ∧ adata st' = adata st
    ∧ adjust_palette p' n st' = (Ok p', st').
Proof.
  intros H26.
  destruct (decide (n ≤ length (palette_colors p))) as [Hlong|Hshort].
  { exists p, st. by rewrite adjust_palette_long. }
  assert (∃ cs st', adjust_palette p n st = (Ok (recolor p cs), st')
                    ∧ n ≤ length cs ∧ adata st' = adata st)
    as (cs & st' & Hrun & Hlen & Had).
  { unfold adjust_palette. rewrite (proj2 (Nat.ltb_lt _ _)) by lia.
    destruct (n <=? 28)%nat eqn:H28.
    - apply Nat.leb_le in H28. exists default_26, st. split_and!; [done|lia|done].
    - destruct (n <=? length default_64)%nat eqn:H64.
      + apply Nat.leb_le in H64. by exists default_64, st.
      + eexists (repeat "grey" n), _. run_M. split_and!; [done| |done].
        by rewrite repeat_length. }
  exists (recolor p cs), st'.
  assert (palette_colors (recolor p cs) = cs) as Hcs
    by (unfold recolor; by destruct (is_list p)).
  split_and!; try done.
  - by rewrite Hcs.
  - unfold recolor. by destruct (is_list p).
  - apply adjust_palette_long. by rewrite Hcs.
Qed.

End MoreColors.

Section MoreColorKeys.

Context `{Imports}.

Local Abbreviation retyped st := (strings_to_categoricals (adata st)).

(** What a call of [get_colors] can do to the dataset: nothing, or
    store the generated palette under a key that was free. *)
Lemma get_colors_adata (c : string) (st : state) :
  adata (get_colors c st).2 = adata st
  ∨ ∃ cats codes,
      obs (adata st) !! c = Some (Categorical cats codes)
      ∧ uns (adata st) !! (c +:+ "_colors") = None
      ∧ adata (get_colors c st).2
        = set_uns (adata st)
            (<[c +:+ "_colors" := generated_palette (length cats)]> (uns (adata st))).
Proof.
  destruct (is_color_like c) eqn:Hlit.
  { left. by rewrite get_colors_literal. }
  destruct (uns (adata st) !! (c +:+ "_colors")) as [pal|] eqn:Huns.
  { left. by rewrite get_colors_frame by eauto. }
  destruct (obs_cat (adata st) c) as [[cats codes]|e] eqn:Hcat.
  2: { left. by rewrite (get_colors_no_cat c st e). }
  assert (obs (adata st) !! c = Some (Categorical cats codes)) as Hobs.
  { unfold obs_cat in Hcat. destruct (obs (adata st) !! c) as [[]|]; congruence. }
  right. exists cats, codes. split_and!; [done..|].
  by destruct (get_colors_generates c st cats codes Hlit Hobs Huns).
Qed.

(** X7. With no key given, a dataset that has neither ['clusters'] nor
    ['louvain'] among its annotations is coloured ['grey'], as long as
    no gene is called ['grey']. *)
Theorem interpret_colorkey_default_grey (layer : option string)
    (perc : option perc_arg) (st : state) :
  obs (adata st) !! "clusters" = None →
  obs (adata st) !! "louvain" = None →
  is_color_like "grey" = true →
  "grey" ∉ var_names (retyped st) →
  interpret_colorkey CNone layer perc st
  = (Ok (Color "grey"), mkState (retyped st) (log st)).
Proof.
  intros Hcl Hlo Hgrey Hvar.
  unfold interpret_colorkey, default_color, is_categorical. run_M.
  rewrite !(proj2 (has_key_false _ _)) by done.
  rewrite Hgrey, orb_true_r, bool_decide_eq_false_2 by done. simpl.
  by apply get_colors_literal.
Qed.

(** X8. All that [interpret_colorkey] does to the dataset is the
    retyping by [strings_to_categoricals] and, at most, storing the
    generated palette of one categorical annotation under a key of
    [uns] that was free; no entry of [uns] is overwritten. *)
Theorem interpret_colorkey_frame (c : colorkey) (layer : option string)
    (perc : option perc_arg) (st : state) :
  let ad' := adata (interpret_colorkey c layer perc st).2 in
  ad' = retyped st
  ∨ ∃ s cats codes,
      obs (retyped st) !! s = Some (Categorical cats codes)
      ∧ uns (retyped st) !! (s +:+ "_colors") = None
      ∧ ad' = set_uns (retyped st)
                (<[s +:+ "_colors" := generated_palette (length cats)]>
                   (uns (retyped st))).
Proof.
  unfold interpret_colorkey, is_categorical. run_M.
  set (ad := retyped st).
  set (st1 := {| adata := ad; log := log st |}).
  assert (∀ s, adata (get_colors s st1).2 = ad
               ∨ ∃ s' cats codes,
                   obs ad !! s' = Some (Categorical cats codes)
                   ∧ uns ad !! (s' +:+ "_colors") = None
                   ∧ adata (get_colors s st1).2
                     = set_uns ad (<[s' +:+ "_colors" := generated_palette (length cats)]>
                                     (uns ad))) as Hget.
  { intros s. destruct (get_colors_adata s st1) as [Hsame|(cats & codes & ?)];
      [by left|right; eauto]. }
  assert (∀ (s : string) (r : result value * state),
            r.2 = st1 ∨ r = get_colors s st1 →
            adata r.2 = ad
            ∨ ∃ s' cats codes,
                obs ad !! s' = Some (Categorical cats codes)
                ∧ uns ad !! (s' +:+ "_colors") = None
                ∧ adata r.2
                  = set_uns ad (<[s' +:+ "_colors" := generated_palette (length cats)]>
                                  (uns ad))) as Hcases.
  { intros s r [->| ->]; [by left|apply Hget]. }
  destruct c as [|s|xs|xs]; simpl.
  - apply (Hcases (default_color (adata st))). destruct (_ && _); [by right|left].
    destruct (obs _ !! _); simpl; [by destruct perc|].
    destruct (bool_decide _).
    + destruct (layer ≫= _); simpl; by destruct perc.
    + destruct (var _ !! _); simpl; [by destruct perc|done].
  - apply (Hcases s). destruct (_ && _); [by right|left].
    destruct (obs _ !! _); simpl; [by destruct perc|].
    destruct (bool_decide _).
    + destruct (layer ≫= _); simpl; by destruct perc.
    + destruct (var _ !! _); simpl; [by destruct perc|done].
  - left. by destruct perc.
  - left. by destruct perc.
Qed.

(** X9. A key that names both a gene and a column of [obs] resolves to
    that column as it is stored, also when the column is categorical:
    no colours are looked up and no palette is stored. *)
Theorem interpret_colorkey_gene_name_shadows (c : string)
    (layer : option string) (st : state) (col : column) :
  c ∈ var_names (retyped st) →
  obs (retyped st) !! c = Some col →
  interpret_colorkey (CStr c) layer None st
  = (Ok (Series col), mkState (retyped st) (log st)).
Proof.
  intros Hvar Hobs. unfold interpret_colorkey, is_categorical. run_M.
  rewrite bool_decide_eq_true_2 by done. simpl. by rewrite Hobs.
Qed.

(** X10. A layer that the dataset does not have is not an error: the
    call answers as if no layer had been named (a gene is then read
    from [X]). *)
Theorem interpret_colorkey_unknown_layer (c : colorkey) (l : string)
    (perc : option perc_arg) (st : state) :
  layers (retyped st) !! l = None →
  interpret_colorkey c (Some l) perc st = interpret_colorkey c None perc st.
Proof.
  intros Hl. unfold interpret_colorkey, is_categorical. run_M.
  destruct c as [|s|xs|xs]; simpl; try done;
    (destruct (_ && _); [done|]);
    (destruct (obs _ !! _); [done|]);
    (destruct (bool_decide _); [|done]);
    cbn; by rewrite Hl.
Qed.

End MoreColorKeys.

(** ** Further properties: bases and plot keys *)

Section MoreKeys.

(** X11. [default_basis] prefers ['umap'] to ['tsne'] and ['tsne'] to
    ['pca']: it answers with the first of the three, in that order,
    whose embedding is stored, and raises when none is. *)
Theorem default_basis_priority (ad : AnnData) :
  default_basis ad
  = if has_key (obsm ad) "X_umap" then Ok (Some "umap")
    else if has_key (obsm ad) "X_tsne" then Ok (Some "tsne")
    else if has_key (obsm ad) "X_pca" then Ok (Some "pca")
    else Raise (ValueError "No basis specified.").
Proof.
  unfold default_basis. rewrite !filter_cons, filter_nil.
  cbv [String.append].
  destruct (has_key (obsm ad) "X_umap"), (has_key (obsm ad) "X_tsne"),
    (has_key (obsm ad) "X_pca"); repeat case_decide; done.
Qed.

(** X12. For an embedding stored under the bare name [basis],
    [check_basis] sees to it that ['X_' + basis] is stored as well: an
    entry already there is kept, otherwise the embedding is stored a
    second time under that name.  No other entry of [obsm] and nothing
    else in the dataset changes. *)
Theorem check_basis_alias (basis : string) (st : state) (e : list (list Q)) :
  obsm (adata st) !! basis = Some e →
  ∃ st',
    check_basis basis st = (Ok tt, st')
    ∧ obsm (adata st') !! ("X_" +:+ basis)
      = Some (default e (obsm (adata st) !! ("X_" +:+ basis)))
    ∧ (∀ k, k ≠ "X_" +:+ basis → obsm (adata st') !! k = obsm (adata st) !! k)
    ∧ adata st' = set_obsm (adata st) (obsm (adata st')).
Proof.
  intros Hb. unfold check_basis. run_M. rewrite Hb.
  destruct (obsm (adata st) !! ("X_" +:+ basis)) as [x|] eqn:Hx.
  - rewrite (proj2 (has_key_true _ _)) by eauto. simpl.
    exists st. split_and!; [done|done|done|by destruct st as [[] ?]].
  - rewrite (proj2 (has_key_false _ _)) by done. simpl.
    eexists. split_and!; [done| | |done]; simpl.
    + apply lookup_insert_eq.
    + intros k Hk. by apply lookup_insert_ne.
Qed.

(** X13. [check_basis] is idempotent: called again with the same name
    it changes nothing and writes nothing to the log. *)
Theorem check_basis_idempotent (basis : string) (st : state) :
  check_basis basis (check_basis basis st).2 = (Ok tt, (check_basis basis st).2).
Proof.
  unfold check_basis. run_M.
  destruct (obsm (adata st) !! basis) as [e|] eqn:Hb; simpl; [|by rewrite Hb].
  destruct (has_key (obsm (adata st)) ("X_" +:+ basis)) eqn:Hx; simpl.
  - by rewrite Hb, Hx.
  - apply has_key_false in Hx.
    assert (basis ≠ "X_" +:+ basis) as Hne by congruence.
    rewrite lookup_insert_ne, Hb by done.
    by rewrite (proj2 (has_key_true _ _)) by (rewrite lookup_insert_eq; eauto).
Qed.

Lemma strip_X_prefixed (b : string) : strip_X ("X_" +:+ b) = b.
Proof.
  unfold strip_X, Py.startswith. cbv [String.append]. simpl.
  by destruct b.
Qed.

(** X14. The two spellings of a basis are one: for a name [b] that
    does not itself begin with ['X_'], [get_basis] answers [b] for
    ['X_' + b] as for [b], with the same effect on the dataset. *)
Theorem get_basis_spellings (b : string) (st : state) :
  Py.startswith b "X_" = false →
  get_basis ("X_" +:+ b) st = get_basis b st
  ∧ (get_basis b st).1 = Ok b.
Proof.
  intros Hb. unfold get_basis. rewrite strip_X_prefixed.
  unfold strip_X. rewrite Hb. split; [done|].
  destruct (check_basis_extends b st) as (st' & Hrun & _).
  run_M. unfold bind. by rewrite Hrun.
Qed.



(** One run of [make_unique_valid_list], spelled out. *)
Lemma make_unique_valid_list_run (keys : list string) (st : state) :
  ∃ st1,
    extends st st1
    ∧ let stripped := strip_X <$> Py.unique keys in
      let l := filter (λ key, key ∈ valid_keys (adata st1)
                              ∨ key ∈ var_names (adata st1)) stripped in
      let dropped := filter (λ key, key ∉ l) stripped in
      make_unique_valid_list (KeyList keys) st
      = (Ok l,
         match dropped with
         | [] => st1
         | _ => mkState (adata st1)
                  (log st1 ++ [LogWarn [Py.join ", " dropped; "not found."]])
         end).
Proof.
  unfold make_unique_valid_list, make_unique_list. unfold bind at 1.
  destruct (strip_and_check_extends (Py.unique keys) st) as (st1 & -> & Hext).
  exists st1. split; [done|]. run_M.
  by destruct (filter _ (strip_X <$> Py.unique keys)).
Qed.

(** X16. [make_unique_valid_list] loses no key without saying so: each
    key given, less its leading ['X_'], is either in the list returned
    or among the keys that the warning names. *)
Theorem make_unique_valid_list_accounts_for_keys (keys : list string)
    (st : state) (key : string) :
  key ∈ keys →
  ∃ l, (make_unique_valid_list (KeyList keys) st).1 = Ok l
       ∧ (strip_X key ∈ l
          ∨ ∃ dropped,
              strip_X key ∈ dropped
              ∧ LogWarn [Py.join ", " dropped; "not found."]
                ∈ log (make_unique_valid_list (KeyList keys) st).2).
Proof.
  intros Hkey.
  destruct (make_unique_valid_list_run keys st) as (st1 & _ & Hrun).
  cbv zeta in Hrun. rewrite Hrun. clear Hrun.
  set (l := filter (λ key, key ∈ valid_keys (adata st1) ∨ key ∈ var_names (adata st1))
                   (strip_X <$> Py.unique keys)).
  assert (strip_X key ∈ strip_X <$> Py.unique keys) as Hin.
  { apply list_elem_of_fmap. exists key. by rewrite elem_of_unique. }
  exists l. split; [done|].
  destruct (decide (strip_X key ∈ l)) as [|Hnot]; [by left|right].
  assert (strip_X key ∈ filter (λ key, key ∉ l) (strip_X <$> Py.unique keys))
    as Hf by by apply list_elem_of_filter.
  destruct (filter (λ key, key ∉ l) (strip_X <$> Py.unique keys))
    as [|d rest] eqn:Hdropped; [by apply elem_of_nil in Hf|].
  exists (d :: rest). split; [done|].
  cbn [snd log]. rewrite elem_of_app. right. by left.
Qed.

End MoreKeys.

Lemma check_basis_alias_witness :
  ∃ st',
    check_basis "diffmap" (mkState cells_bare_basis []) = (Ok tt, st')
    ∧ obsm (adata st') !! "X_diffmap"
      = Some (default [[0; 1]; [1; 0]; [1; 1]; [0; 0]]%Q
                (obsm cells_bare_basis !! "X_diffmap"))
    ∧ (∀ k, k ≠ "X_diffmap" → obsm (adata st') !! k = obsm cells_bare_basis !! k)
    ∧ adata st' = set_obsm cells_bare_basis (obsm (adata st')).
Proof.
  apply (check_basis_alias "diffmap" (mkState cells_bare_basis [])
           [[0; 1]; [1; 0]; [1; 1]; [0; 0]]%Q).
  reflexivity.
Defined.

Lemma get_basis_spellings_witness :
  get_basis "X_umap" (mkState cells []) = get_basis "umap" (mkState cells [])
  ∧ (get_basis "umap" (mkState cells [])).1 = Ok "umap".
Proof.
  apply (get_basis_spellings "umap" (mkState cells [])). reflexivity.
Defined.

Lemma make_unique_valid_list_accounts_for_keys_witness :
  ∃ l, (make_unique_valid_list (KeyList ["X_umap"; "nope"]) (mkState cells [])).1
       = Ok l
       ∧ (strip_X "nope" ∈ l
          ∨ ∃ dropped,
              strip_X "nope" ∈ dropped
              ∧ LogWarn [Py.join ", " dropped; "not found."]
                ∈ log (make_unique_valid_list (KeyList ["X_umap"; "nope"])
                         (mkState cells [])).2).
Proof.
  apply (make_unique_valid_list_accounts_for_keys ["X_umap"; "nope"]
           (mkState cells []) "nope").
  right. left.
Defined.

(** ** Further properties: saving figures *)

Section MoreSaveFig.

Context (settings : Settings) (rc_savefig_dpi : dpi_value) (figdir_exists : bool).

(** The resolution the figure is saved with, the warning that goes
    with it and the settings afterwards. *)
Ltac dpi_cases dpi :=
  destruct dpi as [?|];
  [|destruct rc_savefig_dpi as [?|?];
    [|destruct (Np.Qltb _ 150);
      [destruct (low_resolution_warning settings) eqn:?|]]].

(** The effects of one call: the figure is shown or not; or, when the
    call saves, a possible warning, the directory if it is missing,
    the note and the file, the figure shown or not, the figure
    closed. *)
Lemma savefig_or_show_shape (writekey : option string) (show : option bool)
    (dpi : option Q) (ext : option string) (save : save_arg) :
  let effs := (savefig_or_show settings rc_savefig_dpi figdir_exists
                 writekey show dpi ext save).1 in
  (∃ shown, (shown = [] ∨ shown = [ShowFig]) ∧ effs = shown)
  ∨ (∃ pre fn d shown,
       (pre = [] ∨ ∃ m, pre = [LoggWarn m])
       ∧ (shown = [] ∨ shown = [ShowFig])
       ∧ effs = pre
                ++ (if figdir_exists then [] else [MakeDirs (figdir settings)])
                ++ [LoggMsg ["saving figure to file"; fn]; SaveFig fn d]
                ++ shown ++ [CloseFig]).
Proof.
  unfold savefig_or_show.
  destruct save as [|s|[|]]; cbv zeta;
    [destruct (autosave settings)| |..];
    try (destruct ext as [e|]; [|destruct (find_ext _ None s) as [e s']]);
    cbv iota; cbn [default from_option id];
    try (dpi_cases dpi);
    destruct figdir_exists, (default (autoshow settings) show);
    cbn [fst snd app];
    first
      [ solve [left; eexists; split; [|reflexivity]; eauto]
      | solve [right; eexists [], _, _, [ShowFig];
               split_and!; [eauto|eauto|reflexivity]]
      | solve [right; eexists [], _, _, [];
               split_and!; [eauto|eauto|reflexivity]]
      | solve [right; eexists [LoggWarn _], _, _, [ShowFig];
               split_and!; [eauto|eauto|reflexivity]]
      | solve [right; eexists [LoggWarn _], _, _, [];
               split_and!; [eauto|eauto|reflexivity]] ].
Qed.

(** X17. With an explicit [ext] the name is not searched for an
    extension: the whole of [save] is the base name, and the file gets
    the extension [ext]. *)
Theorem savefig_or_show_explicit_ext (writekey : option string)
    (show : option bool) (dpi : option Q) (e save : string) :
  ∃ dpi',
    SaveFig (figdir settings +:+ plot_prefix settings
             +:+ (stem writekey +:+ save)
             +:+ plot_suffix settings +:+ "." +:+ e) dpi'
    ∈ (savefig_or_show settings rc_savefig_dpi figdir_exists
       writekey show dpi (Some e) (SaveStr save)).1.
Proof.
  unfold savefig_or_show. cbv zeta. cbv iota. cbn [default from_option id].
  set (fn := (figdir settings +:+ _)%string).
  dpi_cases dpi; eexists; simpl;
    rewrite ?elem_of_cons, !elem_of_app, !elem_of_cons; eauto 10.
Qed.

(** X18. A call that is not asked to save ([save=False], or no [save]
    with [settings.autosave] off) writes no file, makes no directory
    and does not close the figure: it shows the figure or does
    nothing, and leaves the settings alone. *)
Theorem savefig_or_show_without_saving (writekey : option string)
    (show : option bool) (dpi : option Q) (ext : option string) (save : save_arg) :
  save = SaveFlag false ∨ (save = SaveNone ∧ autosave settings = false) →
  savefig_or_show settings rc_savefig_dpi figdir_exists writekey show dpi ext save
  = (if default (autoshow settings) show then [ShowFig] else [], settings).
Proof.
  intros [->|[-> Hauto]]; unfold savefig_or_show; simpl; rewrite ?Hauto;
    by destruct (default (autoshow settings) show).
Qed.

(** X19. Every call writes at most one file, and it closes the figure
    exactly when it has written one. *)
Theorem savefig_or_show_closes_what_it_saves (writekey : option string)
    (show : option bool) (dpi : option Q) (ext : option string) (save : save_arg) :
  let effs := (savefig_or_show settings rc_savefig_dpi figdir_exists
       writekey show dpi ext save).1 in
  length (List.filter is_savefig effs) ≤ 1
  ∧ (CloseFig ∈ effs ↔ existsb is_savefig effs = true).
Proof.
  pose proof (savefig_or_show_shape writekey show dpi ext save) as Hshape.
  cbv zeta in Hshape |- *.
  destruct Hshape as [(shown & Hs & ->)|(pre & fn & d & shown & Hpre & Hs & ->)].
  - destruct Hs as [-> | ->]; simpl; (split; [lia|]);
      rewrite ?elem_of_cons, elem_of_nil; intuition (try discriminate; try congruence).
  - destruct Hpre as [->|[m ->]], Hs as [-> | ->], figdir_exists; simpl;
      (split; [lia|]); (split; [done|intros _]); repeat constructor.
Qed.

(** X20. The warning about a low resolution is given once: a call that
    warns turns [_low_resolution_warning] off, and with it off a call
    neither warns nor changes the settings. *)
Theorem savefig_or_show_warns_once (writekey : option string)
    (show : option bool) (dpi : option Q) (ext : option string) (save : save_arg) :
  let r := savefig_or_show settings rc_savefig_dpi figdir_exists
             writekey show dpi ext save in
  (existsb is_warning r.1 = true → low_resolution_warning r.2 = false)
  ∧ (low_resolution_warning settings = false →
     existsb is_warning r.1 = false ∧ r.2 = settings).
Proof.
  unfold savefig_or_show.
  destruct save as [|s|[|]]; cbv zeta;
    [destruct (autosave settings)| |..];
    try (destruct ext as [e|]; [|destruct (find_ext _ None s) as [e s']]);
    cbv iota; cbn [default from_option id];
    try (dpi_cases dpi);
    destruct figdir_exists, (default (autoshow settings) show); simpl;
    split; try done; try congruence.
Qed.

(** X21. The directory of the figures is made only when it is missing,
    and then before the file is written. *)
Theorem savefig_or_show_makes_directory_first (writekey : option string)
    (show : option bool) (dpi : option Q) (ext : option string) (save : save_arg) :
  let effs := (savefig_or_show settings rc_savefig_dpi figdir_exists
       writekey show dpi ext save).1 in
  (figdir_exists = true → MakeDirs (figdir settings) ∉ effs)
  ∧ (figdir_exists = false →
     ∀ f d, SaveFig f d ∈ effs →
            ∃ l1 l2, effs = l1 ++ MakeDirs (figdir settings) :: l2
                     ∧ SaveFig f d ∈ l2
                     ∧ existsb is_savefig l1 = false).
Proof.
  pose proof (savefig_or_show_shape writekey show dpi ext save) as Hshape.
  cbv zeta in Hshape |- *.
  destruct Hshape as [(shown & Hs & ->)|(pre & fn & d & shown & Hpre & Hs & ->)].
  - split.
    + intros _. destruct Hs as [-> | ->];
        rewrite ?elem_of_cons, elem_of_nil; intuition (try discriminate; try congruence).
    + intros _ f d Hin. destruct Hs as [-> | ->];
        rewrite ?elem_of_cons, elem_of_nil in Hin; intuition (try discriminate; try congruence).
  - split.
    + intros ->. simpl.
      destruct Hpre as [->|[m ->]], Hs as [-> | ->]; simpl;
        rewrite ?elem_of_cons, elem_of_nil; intuition (try discriminate; try congruence).
    + intros -> f d' Hin.
      exists pre, ([LoggMsg ["saving figure to file"; fn]; SaveFig fn d]
                   ++ shown ++ [CloseFig]).
      split; [done|]. split.
      * destruct Hpre as [->|[m ->]], Hs as [-> | ->]; simpl in *;
          rewrite ?elem_of_cons, ?elem_of_nil in *; intuition (try discriminate; try congruence).
      * by destruct Hpre as [->|[m ->]].
Qed.

(** X22. Saving on a flag without a [writekey] puts the word ['None']
    where the key would be in the file name. *)
Theorem savefig_or_show_without_writekey (show : option bool) (dpi : option Q)
    (ext : option string) :
  ∃ dpi',
    SaveFig (figdir settings +:+ plot_prefix settings +:+ "None"
             +:+ plot_suffix settings +:+ "."
             +:+ default (file_format_figs settings) ext) dpi'
    ∈ (savefig_or_show settings rc_savefig_dpi figdir_exists
       None show dpi ext (SaveFlag true)).1.
Proof.
  unfold savefig_or_show. cbv zeta. cbv iota. cbn [default from_option id].
  dpi_cases dpi; eexists; simpl;
    rewrite ?elem_of_cons, !elem_of_app, !elem_of_cons; eauto 10.
Qed.

(** X23. A name that ends in none of ['.svg'], ['.pdf'], ['.png'] is
    kept whole, and the file gets the extension
    [settings.file_format_figs]. *)
Theorem savefig_or_show_default_format (writekey : option string)
    (show : option bool) (dpi : option Q) (save : string) :
  (∀ e, e ∈ [".svg"; ".pdf"; ".png"] → Py.endswith save e = false) →
  ∃ dpi',
    SaveFig (figdir settings +:+ plot_prefix settings
             +:+ (stem writekey +:+ save)
             +:+ plot_suffix settings +:+ "." +:+ file_format_figs settings) dpi'
    ∈ (savefig_or_show settings rc_savefig_dpi figdir_exists
       writekey show dpi None (SaveStr save)).1.
Proof.
  intros Hends. unfold savefig_or_show. simpl find_ext.
  rewrite !Hends by (rewrite !elem_of_cons; tauto).
  cbv zeta. cbv iota. cbn [default from_option id].
  set (fn := (figdir settings +:+ _)%string).
  dpi_cases dpi; eexists; simpl;
    rewrite ?elem_of_cons, !elem_of_app, !elem_of_cons; eauto 10.
Qed.

(** X24. A name [base + e] in which the known extension [e] occurs at
    the end only is written under its base name with that extension:
    [figdir + prefix + writekey_ + base + suffix + e]. *)
Theorem savefig_or_show_strips_extension (writekey : option string)
    (show : option bool) (dpi : option Q) (base e : string) :
  e ∈ [".svg"; ".pdf"; ".png"] →
  (∀ i, i < String.length base →
        String.prefix e (Py.drop_chars i (base +:+ e)) = false) →
  ∃ dpi',
    SaveFig (figdir settings +:+ plot_prefix settings
             +:+ (stem writekey +:+ base)
             +:+ plot_suffix settings +:+ "." +:+ Py.drop_chars 1 e) dpi'
    ∈ (savefig_or_show settings rc_savefig_dpi figdir_exists
       writekey show dpi None (SaveStr (base +:+ e))).1.
Proof.
  intros He Hocc.
  destruct (savefig_or_show_filename settings rc_savefig_dpi figdir_exists
              writekey show dpi base e He) as [dpi' Hin].
  exists dpi'. rewrite replace_suffix_only in Hin; [done| |done].
  intros ->. by repeat (apply elem_of_cons in He as [He|He]; [done|]);
    apply elem_of_nil in He.
Qed.

End MoreSaveFig.

(** ** Further properties: clipping, marker size, titles *)

Section MoreClip.

Lemma percentile_invalid (c : list Q) (qs : list Q) :
  forallb Np.valid_percentile qs = false →
  Np.percentile c qs
  = Raise (ValueError "Percentiles must be in the range [0, 100]").
Proof. intros Hq. unfold Np.percentile. by rewrite Hq. Qed.

(** X25. Clipping a non-empty array to the full range changes
    nothing: with the bounds [0, 100], and so with the single numbers
    0 and 100, [clip] returns the array as it is. *)
Theorem clip_full_range (c : list Q) :
  c ≠ [] →
  clip c (PercPair 0 100) = Ok c
  ∧ clip c (PercScalar 0) = Ok c
  ∧ clip c (PercScalar 100) = Ok c.
Proof.
  intros Hne.
  assert (clip c (PercPair 0 100) = Ok c) as Hfull.
  { unfold clip. rewrite percentile_pair by first [done|lra]. f_equal.
    transitivity (map id c); [|apply map_id].
    unfold Np.clip. apply map_ext_in. intros x Hx.
    apply list_elem_of_In in Hx.
    destruct (sample_between c x Hx) as [Hmin Hmax].
    unfold Np.clip1, Np.maximum, Np.minimum.
    by rewrite (proj2 (Qltb_false _ _) Hmin), (proj2 (Qltb_false _ _) Hmax). }
  split_and!; [done|exact Hfull|exact Hfull].
Qed.

(** X26. Clipping between two percentiles [lo <= hi] keeps the length
    of a non-empty array, puts every value between the two bounds and
    keeps the order of the values: where one value was no larger than
    another before, it is no larger after. *)
Theorem clip_within_bounds (c : list Q) (lo hi : Q) :
  c ≠ [] → (0 <= lo)%Q → (lo <= hi)%Q → (hi <= 100)%Q →
  ∃ lb ub r,
    Np.percentile c [lo; hi] = Ok [lb; ub]
    ∧ clip c (PercPair lo hi) = Ok r
    ∧ length r = length c
    ∧ Forall (λ y, (lb <= y)%Q ∧ (y <= ub)%Q) r
    ∧ ∀ i j x y x' y',
        c !! i = Some x → c !! j = Some y →
        r !! i = Some x' → r !! j = Some y' →
        (x <= y)%Q → (x' <= y')%Q.
Proof.
  intros Hne H0 Hlh H100.
  destruct (clip_pair c lo hi Hne H0 Hlh H100) as (lb & ub & Hp & Hle & Hc).
  set (f := λ x : Q, if Np.Qltb x lb then lb else if Np.Qltb ub x then ub else x) in *.
  assert (∀ x, (lb <= f x)%Q ∧ (f x <= ub)%Q) as Hb.
  { intros x. unfold f.
    destruct (Np.Qltb x lb) eqn:H1; [split; lra|].
    apply Qltb_false in H1.
    destruct (Np.Qltb ub x) eqn:H2; [split; lra|].
    apply Qltb_false in H2. split; lra. }
  assert (∀ x y, (x <= y)%Q → (f x <= f y)%Q) as Hmono.
  { intros x y Hxy. unfold f.
    destruct (Np.Qltb x lb) eqn:H1, (Np.Qltb y lb) eqn:H2;
      rewrite ?Qltb_true, ?Qltb_false in *;
      destruct (Np.Qltb ub x) eqn:H3, (Np.Qltb ub y) eqn:H4;
      rewrite ?Qltb_true, ?Qltb_false in *; lra. }
  exists lb, ub, (map f c). split_and!; [done|done| | |].
  - apply length_map.
  - apply Forall_forall. intros y Hy. apply list_elem_of_fmap in Hy as (x & -> & _).
    apply Hb.
  - intros i j x y x' y' Hi Hj Hi' Hj' Hxy.
    change (map f c) with (f <$> c) in Hi', Hj'.
    rewrite list_lookup_fmap, Hi in Hi'. rewrite list_lookup_fmap, Hj in Hj'.
    simpl in *. injection Hi' as <-. injection Hj' as <-. by apply Hmono.
Qed.

(** X27. A percentile outside [0, 100] is refused before the data are
    looked at: [clip] raises the [ValueError] of [np.percentile] for
    every array, the empty one included. *)
Theorem clip_invalid_percentile (c : list Q) :
  (∀ p, Np.valid_percentile p = false →
        clip c (PercScalar p)
        = Raise (ValueError "Percentiles must be in the range [0, 100]"))
  ∧ (∀ lo hi, Np.valid_percentile lo = false ∨ Np.valid_percentile hi = false →
              clip c (PercPair lo hi)
              = Raise (ValueError "Percentiles must be in the range [0, 100]")).
Proof.
  split.
  - intros p Hp. unfold clip.
    destruct (Np.Qltb p 50); rewrite percentile_invalid; try done; simpl;
      rewrite Hp; by rewrite ?andb_false_r.
  - intros lo hi Hq. unfold clip. rewrite percentile_invalid; [done|]. simpl.
    destruct Hq as [-> | ->]; by rewrite ?andb_false_r.
Qed.

(** X28. Bounds given in the wrong order are not put right: with the
    percentiles [hi, lo] for [lo <= hi], every value of a non-empty
    array is replaced by the lower percentile. *)
Theorem clip_reversed_bounds (c : list Q) (lo hi : Q) :
  c ≠ [] → (0 <= lo)%Q → (lo <= hi)%Q → (hi <= 100)%Q →
  ∃ b r,
    Np.percentile c [lo] = Ok [b]
    ∧ clip c (PercPair hi lo) = Ok r
    ∧ length r = length c
    ∧ Forall (λ y, (y == b)%Q) r.
Proof.
  intros Hne H0 Hlh H100.
  pose proof (sort_sorted c) as Hs. pose proof (sort_nonempty c Hne) as Hsne.
  pose proof (lerp_sorted_mono _ lo hi Hs Hsne H0 Hlh H100) as Hle.
  exists (Np.lerp_sorted (QSort.sort c) lo),
         (Np.clip c (Np.lerp_sorted (QSort.sort c) hi)
                    (Np.lerp_sorted (QSort.sort c) lo)).
  split_and!.
  - unfold Np.percentile, Np.valid_percentile. simpl.
    rewrite !(proj2 (Qle_bool_iff _ _)) by lra. simpl. by destruct c.
  - unfold clip. by rewrite percentile_pair by first [done|lra].
  - apply length_map.
  - apply Forall_forall. intros y Hy. unfold Np.clip in Hy.
    apply list_elem_of_fmap in Hy as (x & -> & _).
    unfold Np.clip1, Np.minimum, Np.maximum.
    destruct (Np.Qltb x _) eqn:H1; rewrite ?Qltb_true, ?Qltb_false in H1;
      destruct (Np.Qltb _ _) eqn:H2; rewrite ?Qltb_true, ?Qltb_false in H2; lra.
Qed.

(** X29. [default_size] fails on a dataset without observations and
    on no other.  The size is positive, above 10 under the style
    ['scvelo'], and a dataset with more observations never gets the
    larger markers. *)
Theorem default_size_bounds (style : string) (ad : AnnData) :
  (default_size style ad = None ↔ n_obs ad = 0)
  ∧ ∀ s, default_size style ad = Some s →
         (0 < s)%Q
         ∧ (style = "scvelo" → (10 < s)%Q)
         ∧ ∀ ad' s', n_obs ad ≤ n_obs ad' →
                     default_size style ad' = Some s' → (s' <= s)%Q.
Proof.
  assert (∀ n : nat, n ≠ 0 → (0 < inject_Z (Z.of_nat n))%Q) as Hpos.
  { intros n Hn. change 0%Q with (inject_Z 0). rewrite <- Zlt_Qlt. lia. }
  assert (∀ n : nat, n ≠ 0 → (0 < 120000 / inject_Z (Z.of_nat n))%Q) as Hadj.
  { intros n Hn. apply Qlt_shift_div_l; [by apply Hpos|lra]. }
  unfold default_size. split.
  - destruct (n_obs ad =? 0)%nat eqn:Hn.
    + apply Nat.eqb_eq in Hn. done.
    + apply Nat.eqb_neq in Hn. split; [done|by intros].
  - intros s Hs.
    destruct (n_obs ad =? 0)%nat eqn:Hn; [done|]. apply Nat.eqb_neq in Hn.
    injection Hs as <-.
    pose proof (Hadj _ Hn) as Ha.
    set (a := (120000 / inject_Z (Z.of_nat (n_obs ad)))%Q) in *.
    split_and!.
    + destruct (String.eqb style "scvelo"); [|done].
      apply Qlt_shift_div_l; lra.
    + intros ->. simpl. apply Qlt_shift_div_l; lra.
    + intros ad' s' Hle Hs'.
      destruct (n_obs ad' =? 0)%nat eqn:Hn'; [done|]. apply Nat.eqb_neq in Hn'.
      injection Hs' as <-.
      pose proof (Hpos _ Hn) as Hp. pose proof (Hpos _ Hn') as Hp'.
      set (a' := (120000 / inject_Z (Z.of_nat (n_obs ad')))%Q).
      assert (a' <= a)%Q as Haa.
      { unfold a'. apply Qle_shift_div_r; [done|].
        assert (a * inject_Z (Z.of_nat (n_obs ad)) == 120000)%Q as Heq
          by (unfold a; field; lra).
        assert (inject_Z (Z.of_nat (n_obs ad)) <= inject_Z (Z.of_nat (n_obs ad')))%Q
          as Hnn by (rewrite <- Zle_Qle; lia).
        nra. }
      destruct (String.eqb style "scvelo"); [|done].
      apply Qle_shift_div_r; [lra|].
      assert ((a + 20) / 2 * 2 == a + 20)%Q as -> by field. lra.
Qed.

End MoreClip.

Section Titles.

Context `{Imports}.

Lemma replace_underscore (s : string) (i : nat) :
  String.get i (Py.replace s "_" " ") ≠ Some "_"%char.
Proof.
  unfold Py.replace. revert i. induction s as [|ch s IH]; intros i; [done|].
  cbn [Py.replace_from String.prefix].
  destruct (ascii_dec "_" ch) as [<-|Hne].
  - assert (String.prefix "" s = true) as -> by by destruct s.
    change (String.length "_" - 1) with 0.
    change (" " +:+ ?r) with (String " " r).
    destruct i as [|i]; simpl; [done|apply IH].
  - destruct i as [|i]; simpl; [congruence|apply IH].
Qed.

(** X30. Whatever title, layer and colour key are given, the title
    set on the axes contains no underscore. *)
Theorem set_title_no_underscore (title layer color : option string) (i : nat) :
  String.get i (set_title title layer color) ≠ Some "_"%char.
Proof.
  unfold set_title.
  destruct title as [t|]; [destruct (negb (is_color_like t))|];
    try apply replace_underscore;
    (destruct color as [c|]; [destruct (negb (is_color_like c))|]);
    destruct layer; try apply replace_underscore; by destruct i.
Qed.

End Titles.

Lemma savefig_or_show_without_saving_witness :
  savefig_or_show example_settings (DpiNumber 200) true (Some "umap") None None
    None SaveNone
  = ([ShowFig], example_settings).
Proof.
  apply (savefig_or_show_without_saving example_settings (DpiNumber 200) true
           (Some "umap") None None None SaveNone).
  right. split; reflexivity.
Defined.

Lemma savefig_or_show_warns_once_witness :
  low_resolution_warning
    (savefig_or_show example_settings (DpiNumber 80) true (Some "umap")
       (Some false) None None (SaveFlag true)).2 = false.
Proof.
  apply (proj1 (savefig_or_show_warns_once example_settings (DpiNumber 80) true
                  (Some "umap") (Some false) None None (SaveFlag true))).
  reflexivity.
Defined.

Lemma savefig_or_show_makes_directory_first_witness :
  ∃ l1 l2,
    (savefig_or_show example_settings (DpiNumber 200) false (Some "umap")
       (Some false) None None (SaveFlag true)).1
    = l1 ++ MakeDirs "./figures/" :: l2
    ∧ SaveFig "./figures/scvelo_umap.pdf" (Some (DpiNumber 200)) ∈ l2
    ∧ existsb is_savefig l1 = false.
Proof.
  apply (proj2 (savefig_or_show_makes_directory_first example_settings
                  (DpiNumber 200) false (Some "umap") (Some false) None None
                  (SaveFlag true)) eq_refl).
  vm_compute. repeat constructor.
Defined.

Lemma savefig_or_show_default_format_witness :
  ∃ dpi',
    SaveFig "./figures/scvelo_umap_figure_one.pdf" dpi'
    ∈ (savefig_or_show example_settings (DpiNumber 200) true (Some "umap")
         (Some false) None None (SaveStr "figure_one")).1.
Proof.
  apply (savefig_or_show_default_format example_settings (DpiNumber 200) true
           (Some "umap") (Some false) None "figure_one").
  intros e He.
  repeat (apply elem_of_cons in He as [->|He]; [reflexivity|]).
  by apply elem_of_nil in He.
Defined.

Lemma savefig_or_show_strips_extension_witness :
  ∃ dpi',
    SaveFig "./figures/scvelo_umap_fig.png" dpi'
    ∈ (savefig_or_show example_settings (DpiNumber 200) true (Some "umap")
         (Some false) None None (SaveStr "fig.png")).1.
Proof.
  apply (savefig_or_show_strips_extension example_settings (DpiNumber 200) true
           (Some "umap") (Some false) None "fig" ".png").
  - repeat constructor.
  - intros i Hi. simpl in Hi.
    destruct i as [|[|[|i]]]; [reflexivity..|lia].
Defined.

Lemma clip_full_range_witness :
  clip counts (PercPair 0 100) = Ok counts
  ∧ clip counts (PercScalar 0) = Ok counts
  ∧ clip counts (PercScalar 100) = Ok counts.
Proof. apply (clip_full_range counts). discriminate. Defined.

Lemma clip_within_bounds_witness :
  ∃ lb ub r,
    Np.percentile counts [10; 90]%Q = Ok [lb; ub]
    ∧ clip counts (PercPair 10 90) = Ok r
    ∧ length r = length counts
    ∧ Forall (λ y, (lb <= y)%Q ∧ (y <= ub)%Q) r
    ∧ ∀ i j x y x' y',
        counts !! i = Some x → counts !! j = Some y →
        r !! i = Some x' → r !! j = Some y' →
        (x <= y)%Q → (x' <= y')%Q.
Proof.
  apply (clip_within_bounds counts 10 90).
  - discriminate.
  - unfold Qle. simpl. lia.
  - unfold Qle. simpl. lia.
  - unfold Qle. simpl. lia.
Defined.

Lemma clip_invalid_percentile_witness :
  clip [] (PercScalar 150)
  = Raise (ValueError "Percentiles must be in the range [0, 100]")
  ∧ clip counts (PercPair (-1) 98)
    = Raise (ValueError "Percentiles must be in the range [0, 100]").
Proof.
  split.
  - apply (proj1 (clip_invalid_percentile [])). reflexivity.
  - apply (proj2 (clip_invalid_percentile counts)). left. reflexivity.
Defined.

Lemma clip_reversed_bounds_witness :
  ∃ b r,
    Np.percentile counts [10%Q] = Ok [b]
    ∧ clip counts (PercPair 90 10) = Ok r
    ∧ length r = length counts
    ∧ Forall (λ y, (y == b)%Q) r.
Proof.
  apply (clip_reversed_bounds counts 10 90).
  - discriminate.
  - unfold Qle. simpl. lia.
  - unfold Qle. simpl. lia.
  - unfold Qle. simpl. lia.
Defined.

Lemma default_size_bounds_witness :
  (10 < (120000 / inject_Z (Z.of_nat (n_obs atlas)) + 20) / 2)%Q
  ∧ default_size "scvelo" (mkAnnData 0 ∅ ∅ [] (λ _, []) ∅ ∅ ∅ ∅) = None.
Proof.
  split.
  - apply (proj2 (default_size_bounds "scvelo" atlas) _ eq_refl). reflexivity.
  - apply (proj1 (default_size_bounds "scvelo"
                    (mkAnnData 0 ∅ ∅ [] (λ _, []) ∅ ∅ ∅ ∅))).
    reflexivity.
Defined.

Lemma get_colors_not_categorical_witness :
  @get_colors example_imports "nonsense" (mkState cells [])
  = (Raise (KeyError "nonsense"), mkState cells [])
  ∧ @get_colors example_imports "n_counts" (mkState cells [])
    = (Raise AttributeError, mkState cells []).
Proof.
  split.
  - apply (proj1 (@get_colors_not_categorical example_imports "nonsense"
                    (mkState cells []) eq_refl)).
    reflexivity.
  - apply (proj2 (@get_colors_not_categorical example_imports "n_counts"
                    (mkState cells []) eq_refl) (Numeric [10; 40; 20; 30]%Q));
      reflexivity.
Defined.

Lemma get_colors_array_shape_witness :
  length ["#1f77b4"; "#2ca02c"; "#ff7f0e"; "#2ca02c"] = 4
  ∧ ∃ pal,
      uns (adata (@get_colors example_imports "clusters" (mkState cells [])).2)
        !! "clusters_colors" = Some pal
      ∧ ∀ col, col ∈ ["#1f77b4"; "#2ca02c"; "#ff7f0e"; "#2ca02c"] → col ∈ pal.
Proof.
  apply (@get_colors_array_shape example_imports "clusters" (mkState cells [])).
  vm_compute. reflexivity.
Defined.

Lemma get_colors_missing_value_witness :
  ["#1f77b4"; "#2ca02c"; "#ff7f0e"; "#2ca02c"] !! 3
  = last ["#1f77b4"; "#ff7f0e"; "#2ca02c"]
  ∧ is_Some (last ["#1f77b4"; "#ff7f0e"; "#2ca02c"]).
Proof.
  apply (@get_colors_missing_value example_imports "clusters"
           (mkState cells_missing_value []) ["B"; "NK"; "T"] [0; 2; 1; -1]%Z
           ["#1f77b4"; "#ff7f0e"; "#2ca02c"]
           ["#1f77b4"; "#2ca02c"; "#ff7f0e"; "#2ca02c"] 3).
  - reflexivity.
  - reflexivity.
  - reflexivity.
  - vm_compute. reflexivity.
  - simpl. lia.
  - reflexivity.
Defined.

Lemma get_colors_follows_cycle_witness :
  uns (adata (@get_colors example_imports "clusters"
                (mkState cells_no_palette [])).2) !! "clusters_colors"
  = Some ["#1f77b4"; "#ff7f0e"; "#2ca02c"].
Proof.
  apply (@get_colors_follows_cycle example_imports "clusters"
           (mkState cells_no_palette []) ["B"; "NK"; "T"] [0; 2; 1; 2]%Z).
  - reflexivity.
  - reflexivity.
  - reflexivity.
  - simpl. lia.
Defined.

Lemma adjust_palette_enough_witness :
  ∃ p' st',
    @adjust_palette example_imports (PaletteList ["red"]) 30 (mkState cells [])
    = (Ok p', st')
    ∧ 30 ≤ length (palette_colors p')
    ∧ is_list p' = true
    ∧ adata st' = cells
    ∧ @adjust_palette example_imports p' 30 st' = (Ok p', st').
Proof.
  apply (@adjust_palette_enough example_imports (PaletteList ["red"]) 30
           (mkState cells [])).
  vm_compute. lia.
Defined.

Lemma interpret_colorkey_default_grey_witness :
  @interpret_colorkey example_imports CNone None None (mkState atlas [])
  = (Ok (Color "grey"), mkState (retype_strings atlas) []).
Proof.
  apply (@interpret_colorkey_default_grey example_imports None None
           (mkState atlas [])).
  - reflexivity.
  - reflexivity.
  - reflexivity.
  - simpl. apply not_elem_of_nil.
Defined.

Lemma interpret_colorkey_gene_name_shadows_witness :
  @interpret_colorkey example_imports (CStr "Actb") None None
    (mkState cells_gene_column [])
  = (Ok (Series (Categorical ["off"; "on"] [0; 1; 1; 0]%Z)),
     mkState (retype_strings cells_gene_column) []).
Proof.
  apply (@interpret_colorkey_gene_name_shadows example_imports "Actb" None
           (mkState cells_gene_column [])).
  - simpl. constructor.
  - vm_compute. reflexivity.
Defined.

Lemma interpret_colorkey_unknown_layer_witness :
  @interpret_colorkey example_imports (CStr "Actb") (Some "unspliced") None
    (mkState cells [])
  = @interpret_colorkey example_imports (CStr "Actb") None None (mkState cells []).
Proof.
  apply (@interpret_colorkey_unknown_layer example_imports (CStr "Actb")
           "unspliced" None (mkState cells [])).
  vm_compute. reflexivity.
Defined.
